(** * freebayes: the per-site body of [main] (src/freebayes.cpp)

    [main] is a loop over reference positions.  What the loop body calls
    (pileup parser, genotype enumeration, likelihoods, combination search,
    marginals, formatter) is declared in other headers; of these only
    Marginals.h is at hand.  Those collaborators are gathered in the
    interface [Helpers], and the loop body is embedded on top of it,
    statement by statement.

    Modelling conventions:
    - a [long double] quantity is a real number ([R]); the sums and
      differences [main] computes on [long double] (lines 259, 384, 385 and
      447) are rounded to the format ([roundLD]), and the C library's [exp]
      of line 259 is taken as it comes ([expl]); what the helpers compute is
      theirs;
    - [int] quantities are [Z]; the only arithmetic [main] performs on them is
      comparison, except the failed-site end coordinate, which is computed on
      [long unsigned int] and wraps at 2^64;
    - a [std::vector]/[std::list] is a [list]; [Samples] (a [std::map] walked in
      key order) is the list of its bindings;
    - pointers into containers are positions ([bestCombo]) or the values they
      point to (the members of a combo);
    - a helper changes only the reference arguments it is called to fill or
      update: the combo lists and combos it builds, the seed combo of the
      local expansion, and the likelihoods in the two marginal helpers;
    - the [DEBUG] stream and the trace file are not modelled, nor are the
      locals that feed only them or nothing at all ([containedAlleleTypes],
      [sampleListPlusRef], [samplesWithData], [refAllele], [delta]); the
      output stream, the failed-site file and the calls into the search and
      marginal helpers are. *)

From Stdlib Require Import List Sorted String Ascii Bool ZArith Reals Lra Lia.
Import ListNotations.

Local Open Scope string_scope.
Local Open Scope list_scope.
Local Open Scope R_scope.

(** ** Comparisons on reals, as booleans *)

Definition Rltb (x y : R) : bool := if Rlt_dec x y then true else false.
Definition Rleb (x y : R) : bool := if Rle_dec x y then true else false.
Definition Reqb (x y : R) : bool := if Req_dec_T x y then true else false.

Arguments Rltb : simpl never.

(** ** [long double] arithmetic

    On the platform [main] is built for, [long double] is the x86 extended
    format: 64 significant bits, results rounded to nearest with ties to the
    even significand, least bit no smaller than [2^-16445].  A sum or a
    difference is the exact one, rounded.  Results beyond the largest finite
    value are not represented. *)

(** The integer nearest to [x], the even one at a tie. *)
Definition nearestEven (x : R) : Z :=
  let below := Int_part x in
  if Rlt_dec (x - IZR below) (1 / 2) then below
  else if Rlt_dec (1 / 2) (x - IZR below) then (below + 1)%Z
  else if Z.even below then below else (below + 1)%Z.

(** The exponent of the leading bit of [x > 0]. *)
Definition floorLog2 (x : R) : Z := Int_part (ln x / ln 2).

Definition roundLD (x : R) : R :=
  if Req_dec_T x 0 then 0
  else
    let leastBit := Z.max (floorLog2 (Rabs x) - 63) (-16445) in
    IZR (nearestEven (x / powerRZ 2 leastBit)) * powerRZ 2 leastBit.

Definition ld_add (x y : R) : R := roundLD (x + y).
Definition ld_sub (x y : R) : R := roundLD (x - y).

Arguments roundLD : simpl never.

(** ** Data model *)

(** Allele kinds named in [main]. *)
Inductive AlleleType :=
| ALLELE_GENOTYPE
| ALLELE_REFERENCE
| ALLELE_MNP
| ALLELE_SNP
| ALLELE_INSERTION
| ALLELE_DELETION.

Definition AlleleType_eqb (a b : AlleleType) : bool :=
  match a, b with
  | ALLELE_GENOTYPE, ALLELE_GENOTYPE
  | ALLELE_REFERENCE, ALLELE_REFERENCE
  | ALLELE_MNP, ALLELE_MNP
  | ALLELE_SNP, ALLELE_SNP
  | ALLELE_INSERTION, ALLELE_INSERTION
  | ALLELE_DELETION, ALLELE_DELETION => true
  | _, _ => false
  end.

(** The members of [Allele] that [main] reads: [ga->type], [ga->length],
    [alt.base()]. *)
Record Allele := {
  type : AlleleType;
  base : string;
  length : Z
}.

(** [genotypeAllele(type, base, length)]. *)
Definition genotypeAllele (t : AlleleType) (b : string) (l : Z) : Allele :=
  {| type := t; base := b; length := l |}.

(** [allGenotypeAlleles], filled before the loop (lines 71-75). *)
Definition allGenotypeAlleles : list Allele :=
  [ genotypeAllele ALLELE_GENOTYPE "A" 1;
    genotypeAllele ALLELE_GENOTYPE "T" 1;
    genotypeAllele ALLELE_GENOTYPE "G" 1;
    genotypeAllele ALLELE_GENOTYPE "C" 1 ].

(** The members of [Parameters] that the loop body reads. *)
Record Parameters := {
  minCoverage : Z;
  minAltCount : Z;
  minAltFraction : R;
  excludePartiallyObservedGenotypes : bool;
  excludeUnobservedGenotypes : bool;
  RDF : R;
  useMappingQuality : bool;
  genotypeVariantThreshold : R;
  expectationMaximization : bool;
  expectationMaximizationMaxIterations : Z;
  WB : Z;
  TB : Z;
  genotypeComboStepMax : Z;
  TH : R;
  pooled : bool;
  permute : bool;
  hwePriors : bool;
  obsBinomialPriors : bool;
  alleleBalancePriors : bool;
  diffusionPriorScalar : R;
  PVL : R;
  calculateMarginals : bool;
  genotypingMaxIterations : Z;
  showReferenceRepeats : bool;
  reportAllAlternates : bool;
  failedFile : string
}.

(** The six prior settings every search helper receives, in the order of the
    argument lists: pooled, permute, hwePriors, binomialObsPriors,
    alleleBalancePriors, diffusionPriorScalar. *)
Record PriorArgs := {
  arg_pooled : bool;
  arg_permute : bool;
  arg_hwePriors : bool;
  arg_obsBinomialPriors : bool;
  arg_alleleBalancePriors : bool;
  arg_diffusionPriorScalar : R
}.

(** The settings as the user configured them. *)
Definition configuredPriors (p : Parameters) : PriorArgs :=
  {| arg_pooled := pooled p;
     arg_permute := permute p;
     arg_hwePriors := hwePriors p;
     arg_obsBinomialPriors := obsBinomialPriors p;
     arg_alleleBalancePriors := alleleBalancePriors p;
     arg_diffusionPriorScalar := diffusionPriorScalar p |}.

(** The settings written at the marginal calls: the literal [true] in the
    pooled and hwePriors positions (lines 468, 470, 487, 489). *)
Definition marginalPriors (p : Parameters) : PriorArgs :=
  {| arg_pooled := true;
     arg_permute := permute p;
     arg_hwePriors := true;
     arg_obsBinomialPriors := obsBinomialPriors p;
     arg_alleleBalancePriors := alleleBalancePriors p;
     arg_diffusionPriorScalar := diffusionPriorScalar p |}.

Section Embedding.

(** Opaque data of the collaborators: a genotype, the observations of one
    sample, the allele groups of a site. *)
Context {Genotype Sample AlleleGroups : Type}.

(** [Samples]: sample name to observations, in key order. *)
Definition Samples := list (string * Sample).

(** [SampleDataLikelihood(name, &sample, genotype, prob, marginal)]. *)
Record SampleDataLikelihood := {
  name : string;
  sample : Sample;
  genotype : Genotype;
  prob : R;
  marginal : R
}.

(** [vector<vector<SampleDataLikelihood> >]: one row per sample with data. *)
Definition SampleDataLikelihoods := list (list SampleDataLikelihood).

(** [Result]: a vector of [SampleDataLikelihood] with a name and a pointer to
    the observations; [Results] maps sample names to them. *)
Record Result := {
  res_name : string;
  res_observations : option Sample;
  res_data : list SampleDataLikelihood
}.

Definition Results := list (string * Result).

(** [GenotypeCombo]: the vector of per-sample choices plus the scores [main]
    reads. *)
Record GenotypeCombo := {
  members : list SampleDataLikelihood;
  probObsGivenGenotypes : R;
  priorProbG_Af : R;
  priorProbAf : R;
  priorProbObservations : R;
  posteriorProb : R
}.

(** [combo.clear()]: empties the vector part. *)
Definition clear (c : GenotypeCombo) : GenotypeCombo :=
  {| members := [];
     probObsGivenGenotypes := probObsGivenGenotypes c;
     priorProbG_Af := priorProbG_Af c;
     priorProbAf := priorProbAf c;
     priorProbObservations := priorProbObservations c;
     posteriorProb := posteriorProb c |}.

(** What the parser exposes at the current position. *)
Record Site := {
  currentReferenceBaseString : string;
  currentReferenceBase : ascii;
  inTarget : bool;
  currentSequenceName : string;
  currentPosition : Z;
  sampleList : list string;
  sequencingTechnologies : list string;
  currentSamplePloidy : string -> Z;
  samples : Samples
}.

(** The functions [main] calls and whose bodies are in other files.  A
    reference argument that the callee fills is returned as a result. *)
Class Helpers := {
  countAlleles : Samples -> Z;
  sufficientAlternateObservations : Samples -> Z -> R -> bool;
  groupAlleles : Samples -> AlleleGroups;
  genotypeAlleles : AlleleGroups -> Samples -> list Allele -> list Allele;
  allPossibleGenotypes : Z -> list Allele -> list Genotype;
  sampleHasSupportingObservationsForAllAlleles : Genotype -> Sample -> bool;
  sampleHasSupportingObservations : Genotype -> Sample -> bool;
  probObservedAllelesGivenGenotypes :
    Sample -> list Genotype -> R -> bool -> list (Genotype * R);
  sortSampleDataLikelihoods : list SampleDataLikelihood -> list SampleDataLikelihood;
  float2phred : R -> R;
  (** [exp] of the C library at [long double] (line 259) *)
  expl : R -> R;
  bandedGenotypeCombinationsIncludingAllHomozygousCombos :
    SampleDataLikelihoods -> SampleDataLikelihoods -> SampleDataLikelihoods ->
    Samples -> list Allele -> Z -> Z -> Z -> R -> PriorArgs -> list GenotypeCombo;
  expectationMaximizationSearchIncludingAllHomozygousCombos :
    SampleDataLikelihoods -> SampleDataLikelihoods -> SampleDataLikelihoods ->
    Samples -> list Allele -> Z -> Z -> Z -> R -> PriorArgs -> Z -> list GenotypeCombo;
  (** [GenotypeComboResultSorter::operator()] and [GenotypeCombo::operator==] *)
  gcrSorter : GenotypeCombo -> GenotypeCombo -> bool;
  GenotypeCombo_eq : GenotypeCombo -> GenotypeCombo -> bool;
  logsumexp_probs : list R -> R;
  safe_exp : R -> R;
  isHomozygous : GenotypeCombo -> bool;
  (** the default constructor of [GenotypeCombo] *)
  emptyCombo : GenotypeCombo;
  orderedGenotypeCombo :
    GenotypeCombo -> SampleDataLikelihoods -> R -> PriorArgs -> GenotypeCombo;
  (** returns the combos and the seed as the callee leaves it *)
  allLocalGenotypeCombinations :
    GenotypeCombo -> SampleDataLikelihoods -> Samples -> list Allele -> Z -> R ->
    PriorArgs -> list GenotypeCombo * GenotypeCombo;
  (** Marginals.h, line 11: returns delta, updates the likelihoods *)
  marginalGenotypeLikelihoods :
    list GenotypeCombo -> SampleDataLikelihoods -> R * SampleDataLikelihoods;
  (** returns whether the order changed, and the re-sorted likelihoods *)
  sortSampleDataLikelihoodsByMarginals :
    SampleDataLikelihoods -> bool * SampleDataLikelihoods;
  dataLikelihoodMaxGenotypeCombo :
    SampleDataLikelihoods -> R -> PriorArgs -> GenotypeCombo;
  results_update : Results -> SampleDataLikelihoods -> Results;
  repeatCounts : Site -> Z -> list (string * Z);
  alternateAlleles : GenotypeCombo -> string -> list (Allele * Z)
}.

Context `{Helpers}.

(** ** The skip checks (lines 104-179) *)

(** Each [continue] of the first part of the loop body. *)
Inductive SkipReason :=
| skip_reference_base        (* line 107 *)
| skip_not_in_target         (* line 129 *)
| skip_zero_coverage         (* line 139 *)
| skip_low_coverage          (* line 142 *)
| skip_alternate_observations (* line 153 *)
| skip_genotype_alleles.     (* line 178 *)

(** [cb != "A" && cb != "T" && cb != "C" && cb != "G"] *)
Definition nonATGC (cb : string) : bool :=
  negb (cb =? "A")%string && negb (cb =? "T")%string
  && negb (cb =? "C")%string && negb (cb =? "G")%string.

(** The site's genotype alleles (lines 156-174). *)
Definition siteGenotypeAlleles (s : Site) : list Allele :=
  let alleleGroups := groupAlleles (samples s) in
  genotypeAlleles alleleGroups (samples s) allGenotypeAlleles.

(** The checks in program order; [None] when the site goes on to line 182. *)
Definition skipCheck (p : Parameters) (s : Site) : option SkipReason :=
  let cb := currentReferenceBaseString s in
  if nonATGC cb then Some skip_reference_base
  else if negb (inTarget s) then Some skip_not_in_target
  else
    let coverage := countAlleles (samples s) in
    if (coverage =? 0)%Z then Some skip_zero_coverage
    else if (coverage <? minCoverage p)%Z then Some skip_low_coverage
    else if negb (sufficientAlternateObservations (samples s) (minAltCount p) (minAltFraction p))
    then Some skip_alternate_observations
    else if (Z.of_nat (List.length (siteGenotypeAlleles s)) <=? 1)%Z
    then Some skip_genotype_alleles
    else None.

(** ** Containers *)

(** [std::list::sort(comp)] is a stable sort; for a comparator that is a
    strict weak ordering its result is fixed by the comparator alone.  It is
    embedded as insertion from the right, which places an element before the
    first element that does not precede it, hence before its equivalents. *)
Fixpoint sort_insert {A : Type} (comp : A -> A -> bool) (x : A) (l : list A) : list A :=
  match l with
  | [] => [x]
  | y :: l' => if comp y x then y :: sort_insert comp x l' else x :: y :: l'
  end.

Definition list_sort {A : Type} (comp : A -> A -> bool) (l : list A) : list A :=
  fold_right (sort_insert comp) [] l.

(** [std::list::unique()]: walks the list once and erases every element that
    compares equal to the element kept just before it. *)
Fixpoint unique_after {A : Type} (eq : A -> A -> bool) (kept : A) (l : list A) : list A :=
  match l with
  | [] => []
  | y :: l' => if eq kept y then unique_after eq kept l' else y :: unique_after eq y l'
  end.

Definition list_unique {A : Type} (eq : A -> A -> bool) (l : list A) : list A :=
  match l with
  | [] => []
  | x :: l' => x :: unique_after eq x l'
  end.

(** [std::map<int, V>]: bindings in key order. *)
Fixpoint map_find {V : Type} (k : Z) (m : list (Z * V)) : option V :=
  match m with
  | [] => None
  | (k', v) :: m' => if (k =? k')%Z then Some v else map_find k m'
  end.

Fixpoint map_insert {V : Type} (k : Z) (v : V) (m : list (Z * V)) : list (Z * V) :=
  match m with
  | [] => [(k, v)]
  | (k', v') :: m' =>
      if (k <? k')%Z then (k, v) :: m
      else if (k =? k')%Z then (k, v) :: m'
      else (k', v') :: map_insert k v m'
  end.

(** [std::map<string, Result>]: [results[name]] yields the binding, or a
    default-constructed [Result] that it first inserts. *)
Fixpoint results_find (k : string) (m : Results) : option Result :=
  match m with
  | [] => None
  | (k', v) :: m' => if (k =? k')%string then Some v else results_find k m'
  end.

Fixpoint results_set (k : string) (v : Result) (m : Results) : Results :=
  match m with
  | [] => [(k, v)]
  | (k', v') :: m' =>
      if (k =? k')%string then (k, v) :: m' else (k', v') :: results_set k v m'
  end.

Definition defaultResult : Result :=
  {| res_name := ""; res_observations := None; res_data := [] |}.

(** ** Genotypes per ploidy (lines 184-195) *)

Fixpoint genotypesByPloidyLoop (s : Site) (genotypeAlleles : list Allele)
    (todo : Samples) (genotypesByPloidy : list (Z * list Genotype))
    : list (Z * list Genotype) :=
  match todo with
  | [] => genotypesByPloidy
  | (name, _) :: todo' =>
      let samplePloidy := currentSamplePloidy s name in
      match map_find samplePloidy genotypesByPloidy with
      | None =>
          genotypesByPloidyLoop s genotypeAlleles todo'
            (map_insert samplePloidy (allPossibleGenotypes samplePloidy genotypeAlleles)
               genotypesByPloidy)
      | Some _ => genotypesByPloidyLoop s genotypeAlleles todo' genotypesByPloidy
      end
  end.

(** ** Data likelihoods and the variant / invariant partition (lines 207-271) *)

Record Likelihoods := {
  results : Results;
  sampleDataLikelihoods : SampleDataLikelihoods;
  variantSampleDataLikelihoods : SampleDataLikelihoods;
  invariantSampleDataLikelihoods : SampleDataLikelihoods
}.

Definition noLikelihoods : Likelihoods :=
  {| results := [];
     sampleDataLikelihoods := [];
     variantSampleDataLikelihoods := [];
     invariantSampleDataLikelihoods := [] |}.

(** Lines 221-231: which genotypes enter [genotypesWithObs]. *)
Definition keepsGenotype (p : Parameters) (sample : Sample) (g : Genotype) : bool :=
  if excludePartiallyObservedGenotypes p
  then sampleHasSupportingObservationsForAllAlleles g sample
  else if excludeUnobservedGenotypes p
  then sampleHasSupportingObservations g sample
  else true.

(** Lines 258-260: [sampleData.size() > 1 &&
    float2phred(1 - (exp(front.prob) - exp(at(1).prob))) < threshold]. *)
Definition belowVariantThreshold (p : Parameters)
    (sampleData : list SampleDataLikelihood) : bool :=
  match sampleData with
  | front :: at1 :: _ =>
      Rltb (float2phred
              (ld_sub 1 (ld_sub (expl (prob front)) (expl (prob at1)))))
           (genotypeVariantThreshold p)
  | _ => false
  end.

(** Lines 257-268: whether the row goes to the variant table. *)
Definition flaggedVariant (p : Parameters)
    (sampleData : list SampleDataLikelihood) : bool :=
  if negb (Reqb (genotypeVariantThreshold p) 0)
  then belowVariantThreshold p sampleData
  else true.

(** One pass of the loop of lines 214-271. *)
Definition likelihoodStep (p : Parameters) (s : Site)
    (genotypesByPloidy : list (Z * list Genotype))
    (st : Likelihoods) (entry : string * Sample) : Likelihoods :=
  let sampleName := fst entry in
  let sample := snd entry in
  let genotypes :=
    match map_find (currentSamplePloidy s sampleName) genotypesByPloidy with
    | Some gs => gs
    | None => []
    end in
  let genotypesWithObs := filter (keepsGenotype p sample) genotypes in
  match genotypesWithObs with
  | [] => st                                               (* line 236 *)
  | _ :: _ =>
      let probs :=
        probObservedAllelesGivenGenotypes sample genotypesWithObs
          (RDF p) (useMappingQuality p) in
      let previous :=
        match results_find sampleName (results st) with
        | Some r => r
        | None => defaultResult
        end in
      let pushed :=
        res_data previous
        ++ map (fun pr => {| name := sampleName; sample := sample;
                             genotype := fst pr; prob := snd pr; marginal := 0 |})
               probs in
      let sampleData := sortSampleDataLikelihoods pushed in
      let results' :=
        results_set sampleName
          {| res_name := sampleName; res_observations := Some sample;
             res_data := sampleData |}
          (results st) in
      let isVariant := flaggedVariant p sampleData in
      {| results := results';
         sampleDataLikelihoods := sampleDataLikelihoods st ++ [sampleData];
         variantSampleDataLikelihoods :=
           if isVariant
           then variantSampleDataLikelihoods st ++ [sampleData]
           else variantSampleDataLikelihoods st;
         invariantSampleDataLikelihoods :=
           if isVariant
           then invariantSampleDataLikelihoods st
           else invariantSampleDataLikelihoods st ++ [sampleData] |}
  end.

Definition likelihoodLoop (p : Parameters) (s : Site)
    (genotypesByPloidy : list (Z * list Genotype)) : Likelihoods :=
  fold_left (likelihoodStep p s genotypesByPloidy) (samples s) noLikelihoods.

(** ** The first search (lines 298-338) *)

(** The helper calls of one site, in program order, with the arguments the
    properties below speak about. *)
Inductive Call :=
| call_search (em : bool)
    (all variant invariant : SampleDataLikelihoods) (a : PriorArgs)
| call_orderedGenotypeCombo (a : PriorArgs)
| call_allLocalGenotypeCombinations (i : Z) (a : PriorArgs)
| call_marginalGenotypeLikelihoods (i : Z)
| call_sortSampleDataLikelihoodsByMarginals (i : Z) (changed : bool)
| call_dataLikelihoodMaxGenotypeCombo (a : PriorArgs).

Definition searchCombos (p : Parameters) (s : Site) (genotypeAlleles : list Allele)
    (l : Likelihoods) : list GenotypeCombo :=
  if expectationMaximization p
  then expectationMaximizationSearchIncludingAllHomozygousCombos
         (sampleDataLikelihoods l) (variantSampleDataLikelihoods l)
         (invariantSampleDataLikelihoods l) (samples s) genotypeAlleles
         (WB p) (TB p) (genotypeComboStepMax p) (TH p) (configuredPriors p)
         (expectationMaximizationMaxIterations p)
  else bandedGenotypeCombinationsIncludingAllHomozygousCombos
         (sampleDataLikelihoods l) (variantSampleDataLikelihoods l)
         (invariantSampleDataLikelihoods l) (samples s) genotypeAlleles
         (WB p) (TB p) (genotypeComboStepMax p) (TH p) (configuredPriors p).

Definition searchCall (p : Parameters) (l : Likelihoods) : Call :=
  call_search (expectationMaximization p)
    (sampleDataLikelihoods l) (variantSampleDataLikelihoods l)
    (invariantSampleDataLikelihoods l) (configuredPriors p).

(** Lines 347-349 (and 495-496): [sort(gcrSorter); unique();]. *)
Definition sortUnique (combos : list GenotypeCombo) : list GenotypeCombo :=
  list_unique GenotypeCombo_eq (list_sort gcrSorter combos).

(** ** The site decision (lines 351-403) *)

(** The locals of lines 374-379; [bestCombo] is the position of the combo the
    pointer refers to, [None] for [NULL]. *)
Record Decision := {
  pVar : R;
  pHom : R;
  hasHetCombo : bool;
  bestOverallComboIsHet : bool;
  bestCombo : option nat
}.

Definition initialDecision : Decision :=
  {| pVar := 1; pHom := 0; hasHetCombo := false;
     bestOverallComboIsHet := false; bestCombo := None |}.

(** The body of the loop of lines 382-393 at position [i]. *)
Definition decisionStep (posteriorNormalizer : R) (d : Decision) (i : nat)
    (gc : GenotypeCombo) : Decision :=
  if isHomozygous gc then
    {| pVar := ld_sub (pVar d)
                 (safe_exp (ld_sub (posteriorProb gc) posteriorNormalizer));
       pHom := ld_add (pHom d)
                 (safe_exp (ld_sub (posteriorProb gc) posteriorNormalizer));
       hasHetCombo := hasHetCombo d;
       bestOverallComboIsHet := bestOverallComboIsHet d;
       bestCombo := bestCombo d |}
  else if negb (hasHetCombo d) then
    {| pVar := pVar d;
       pHom := pHom d;
       hasHetCombo := true;
       bestOverallComboIsHet :=
         if Nat.eqb i 0 then true else bestOverallComboIsHet d;
       bestCombo := Some i |}
  else d.

Fixpoint decisionLoop (posteriorNormalizer : R) (i : nat)
    (combos : list GenotypeCombo) (d : Decision) : Decision :=
  match combos with
  | [] => d
  | gc :: rest =>
      decisionLoop posteriorNormalizer (S i) rest
        (decisionStep posteriorNormalizer d i gc)
  end.

(** Lines 352-356. *)
Definition posteriorNormalizer (genotypeCombos : list GenotypeCombo) : R :=
  logsumexp_probs (map posteriorProb genotypeCombos).

(** Lines 374-398: the loop, then the fall-back to [&genotypeCombos.front()]. *)
Definition siteDecision (genotypeCombos : list GenotypeCombo) : Decision :=
  let d := decisionLoop (posteriorNormalizer genotypeCombos) 0 genotypeCombos
             initialDecision in
  if negb (hasHetCombo d) then
    {| pVar := pVar d; pHom := pHom d; hasHetCombo := hasHetCombo d;
       bestOverallComboIsHet := bestOverallComboIsHet d;
       bestCombo := Some 0%nat |}
  else d.

(** Line 403: [*bestCombo]; with an empty list the pointer, taken at line
    397, has no combo to refer to. *)
Definition bestGenotypeCombo (genotypeCombos : list GenotypeCombo) : option GenotypeCombo :=
  match bestCombo (siteDecision genotypeCombos) with
  | Some i => nth_error genotypeCombos i
  | None => None
  end.

(** ** Helper calls with their trace *)

(** A value together with the helper calls made to obtain it. *)
Definition Traced (A : Type) : Type := (A * list Call)%type.

Definition ret {A : Type} (a : A) : Traced A := (a, []).

Definition bind {A B : Type} (m : Traced A) (k : A -> Traced B) : Traced B :=
  (fst (k (fst m)), snd m ++ snd (k (fst m))).

(** The result [a] of the helper call [c]. *)
Definition calling {A : Type} (c : Call) (a : A) : Traced A := (a, [c]).

Notation "x <- m ;; k" := (bind m (fun x => k))
  (at level 61, m at next level, right associativity).

(** ** Marginals (lines 451-542) *)

(** The loop of lines 475-524.  [remaining] is [genotypingMaxIterations - i],
    so the guard [i < genotypingMaxIterations] holds exactly when it is not
    zero; [seed] is the combo the conditional expression of line 481 selects,
    which the helper receives by reference. *)
Fixpoint marginalLoop (p : Parameters) (s : Site) (genotypeAlleles : list Allele)
    (remaining : nat) (i : Z) (bestComboOrdered nullCombo : GenotypeCombo)
    (sampleDataLikelihoods : SampleDataLikelihoods)
    : Traced SampleDataLikelihoods :=
  match remaining with
  | O => ret sampleDataLikelihoods
  | S remaining' =>
      let seed := if (i =? 0)%Z then bestComboOrdered else nullCombo in
      local <- calling (call_allLocalGenotypeCombinations i (marginalPriors p))
                 (allLocalGenotypeCombinations seed sampleDataLikelihoods
                    (samples s) genotypeAlleles (genotypeComboStepMax p) (TH p)
                    (marginalPriors p)) ;;
      let bestComboOrdered' := if (i =? 0)%Z then snd local else bestComboOrdered in
      let nullCombo' := if (i =? 0)%Z then nullCombo else snd local in
      let localGenotypeCombos := sortUnique (fst local) in
      marg <- calling (call_marginalGenotypeLikelihoods i)
                (marginalGenotypeLikelihoods localGenotypeCombos
                   sampleDataLikelihoods) ;;
      sorted <- (let r := sortSampleDataLikelihoodsByMarginals (snd marg) in
                 calling (call_sortSampleDataLikelihoodsByMarginals i (fst r)) r) ;;
      if negb (fst sorted) then ret (snd sorted)                  (* line 508 *)
      else marginalLoop p s genotypeAlleles remaining' (i + 1)%Z
             bestComboOrdered' (clear nullCombo') (snd sorted)
  end.

(** Lines 460-540, for a non-empty combo list with first element [front]:
    the combo for the formatter, the likelihoods after the loop, and the
    updated results. *)
Definition marginals (p : Parameters) (s : Site) (genotypeAlleles : list Allele)
    (front : GenotypeCombo) (l : Likelihoods)
    : Traced (GenotypeCombo * SampleDataLikelihoods * Results) :=
  bestComboOrdered <-
    calling (call_orderedGenotypeCombo (marginalPriors p))
      (orderedGenotypeCombo front (sampleDataLikelihoods l) (TH p)
         (marginalPriors p)) ;;
  sdl <- marginalLoop p s genotypeAlleles
           (Z.to_nat (genotypingMaxIterations p)) 0%Z
           bestComboOrdered emptyCombo (sampleDataLikelihoods l) ;;
  bestGenotypeComboByMarginals <-
    calling (call_dataLikelihoodMaxGenotypeCombo (configuredPriors p))
      (dataLikelihoodMaxGenotypeCombo sdl (TH p) (configuredPriors p)) ;;
  ret (bestGenotypeComboByMarginals, sdl, results_update (results l) sdl).

(** The likelihoods as the loop leaves them, sorted by marginal, and the
    calls the loop made. *)
Definition marginalSorted (p : Parameters) (s : Site) (genotypeAlleles : list Allele)
    (front : GenotypeCombo) (l : Likelihoods) : SampleDataLikelihoods :=
  fst (marginalLoop p s genotypeAlleles
         (Z.to_nat (genotypingMaxIterations p)) 0%Z
         (orderedGenotypeCombo front (sampleDataLikelihoods l) (TH p)
            (marginalPriors p))
         emptyCombo (sampleDataLikelihoods l)).

Definition marginalLoopCalls (p : Parameters) (s : Site) (genotypeAlleles : list Allele)
    (front : GenotypeCombo) (l : Likelihoods) : list Call :=
  snd (marginalLoop p s genotypeAlleles
         (Z.to_nat (genotypingMaxIterations p)) 0%Z
         (orderedGenotypeCombo front (sampleDataLikelihoods l) (TH p)
            (marginalPriors p))
         emptyCombo (sampleDataLikelihoods l)).

(** ** Output (lines 544-605) *)

(** The arguments of one [out << vcf(...)]. *)
Record VcfArgs := {
  vcf_pHom : R;
  vcf_samples : Samples;
  vcf_referenceBase : string;
  vcf_altbase : string;
  vcf_alt : Allele;
  vcf_repeats : list (string * Z);
  vcf_sampleList : list string;
  vcf_coverage : Z;
  vcf_combo : GenotypeCombo;
  vcf_bestOverallComboIsHet : bool;
  vcf_alleleGroups : AlleleGroups;
  vcf_genotypesByPloidy : list (Z * list Genotype);
  vcf_sequencingTechnologies : list string;
  vcf_results : Results
}.

(** One line of the failed-site file (lines 598-602). *)
Record FailedLine := {
  failed_sequence : string;
  failed_start : Z;
  failed_end : Z;
  failed_allele : Allele
}.

(** What is fixed for a site once line 182 is reached. *)
Record SiteData := {
  coverage : Z;
  alleleGroups : AlleleGroups;
  siteAlleles : list Allele;
  genotypesByPloidy : list (Z * list Genotype)
}.

Definition siteData (s : Site) : SiteData :=
  let alleleGroups := groupAlleles (samples s) in
  let alleles := genotypeAlleles alleleGroups (samples s) allGenotypeAlleles in
  {| coverage := countAlleles (samples s);
     alleleGroups := alleleGroups;
     siteAlleles := alleles;
     genotypesByPloidy := genotypesByPloidyLoop s alleles (samples s) [] |}.

(** Lines 544-590.  [None]: [alternates.front()] of an empty vector. *)
Definition emitRecords (p : Parameters) (s : Site) (sd : SiteData) (d : Decision)
    (bestGenotypeCombo comboForVcf : GenotypeCombo) (results : Results)
    : option (list VcfArgs) :=
  let referenceBase := String (currentReferenceBase s) "" in
  let repeats := if showReferenceRepeats p then repeatCounts s 12 else [] in
  let alternates := alternateAlleles bestGenotypeCombo referenceBase in
  let record (alt : Allele) :=
    {| vcf_pHom := pHom d;
       vcf_samples := samples s;
       vcf_referenceBase := referenceBase;
       vcf_altbase := base alt;
       vcf_alt := alt;
       vcf_repeats := repeats;
       vcf_sampleList := sampleList s;
       vcf_coverage := coverage sd;
       vcf_combo := comboForVcf;
       vcf_bestOverallComboIsHet := bestOverallComboIsHet d;
       vcf_alleleGroups := alleleGroups sd;
       vcf_genotypesByPloidy := genotypesByPloidy sd;
       vcf_sequencingTechnologies := sequencingTechnologies s;
       vcf_results := results |} in
  if reportAllAlternates p
  then Some (map (fun a => record (fst a)) alternates)
  else match alternates with
       | a :: _ => Some [record (fst a)]
       | [] => None
       end.

(** Lines 594-603; [position] is a [long unsigned int]. *)
Definition failedLines (s : Site) (genotypeAlleles : list Allele) : list FailedLine :=
  let position := (currentPosition s mod 2 ^ 64)%Z in
  map (fun ga =>
         {| failed_sequence := currentSequenceName s;
            failed_start := position;
            failed_end := ((position + length ga) mod 2 ^ 64)%Z;
            failed_allele := ga |})
      (filter (fun ga => negb (AlleleType_eqb (type ga) ALLELE_REFERENCE))
         genotypeAlleles).

(** [(1 - pHom) >= parameters.PVL] (line 447). *)
Definition passesPVL (p : Parameters) (d : Decision) : bool :=
  if Rge_dec (ld_sub 1 (pHom d)) (PVL p) then true else false.

(** The alternates of line 550 for the site's combo list ([None] when there
    is no [bestCombo] to read them from). *)
Definition siteAlternates (s : Site) (genotypeCombos : list GenotypeCombo)
    : option (list (Allele * Z)) :=
  match bestGenotypeCombo genotypeCombos with
  | Some best => Some (alternateAlleles best (String (currentReferenceBase s) ""))
  | None => None
  end.

(** ** One site *)

(** Everything a processed site produces.  [rep_out] is what is written to
    the output stream; it is [None] where the program reads the [front()] of
    an empty container: the combo that [bestCombo] points to when the combo
    list is empty (lines 464 and 550), or the first alternate of an empty
    alternate list (line 572). *)
Record SiteReport := {
  rep_data : SiteData;
  rep_likelihoods : Likelihoods;
  rep_genotypeCombos : list GenotypeCombo;
  rep_decision : Decision;
  rep_calls : list Call;
  rep_out : option (list VcfArgs);
  rep_failed : list FailedLine
}.

(** Lines 447-590 for a non-empty combo list. *)
Definition calledSite (p : Parameters) (s : Site) (sd : SiteData)
    (l : Likelihoods) (front bestGenotypeCombo : GenotypeCombo) (d : Decision)
    : Traced (option (list VcfArgs)) :=
  if calculateMarginals p then
    m <- marginals p s (siteAlleles sd) front l ;;
    ret (emitRecords p s sd d bestGenotypeCombo (fst (fst m)) (snd m))
  else
    ret (emitRecords p s sd d bestGenotypeCombo bestGenotypeCombo (results l)).

(** Lines 182-606. *)
Definition siteReport (p : Parameters) (s : Site) : SiteReport :=
  let sd := siteData s in
  let l := likelihoodLoop p s (genotypesByPloidy sd) in
  let genotypeCombos := sortUnique (searchCombos p s (siteAlleles sd) l) in
  let d := siteDecision genotypeCombos in
  let report calls out failed :=
    {| rep_data := sd; rep_likelihoods := l; rep_genotypeCombos := genotypeCombos;
       rep_decision := d; rep_calls := searchCall p l :: calls;
       rep_out := out; rep_failed := failed |} in
  if passesPVL p d then                                         (* line 447 *)
    match genotypeCombos, bestGenotypeCombo genotypeCombos with
    | front :: _, Some best =>
        let r := calledSite p s sd l front best d in
        report (snd r) (fst r) []
    | _, _ => report [] None []
    end
  else if (failedFile p =? "")%string then report [] (Some []) []    (* line 591 *)
  else report [] (Some []) (failedLines s (siteAlleles sd)).

(** One pass of the [while] loop of [main]. *)
Inductive Outcome :=
| Skipped (why : SkipReason)
| Processed (r : SiteReport).

Definition processSite (p : Parameters) (s : Site) : Outcome :=
  match skipCheck p s with
  | Some why => Skipped why
  | None => Processed (siteReport p s)
  end.

(** The records a pass writes to the output stream, and the lines it writes
    to the failed-site file. *)
Definition recordsWritten (o : Outcome) : option (list VcfArgs) :=
  match o with
  | Skipped _ => Some []
  | Processed r => rep_out r
  end.

Definition failedWritten (o : Outcome) : list FailedLine :=
  match o with
  | Skipped _ => []
  | Processed r => rep_failed r
  end.

(** ** Specification-level notions *)

(** The first heterozygous combo in list order, and its position. *)
Definition firstHet (genotypeCombos : list GenotypeCombo) : option GenotypeCombo :=
  find (fun gc => negb (isHomozygous gc)) genotypeCombos.

Fixpoint firstHetIndex (genotypeCombos : list GenotypeCombo) : option nat :=
  match genotypeCombos with
  | [] => None
  | gc :: rest =>
      if isHomozygous gc then option_map S (firstHetIndex rest) else Some 0%nat
  end.

(** Sorted by descending [posteriorProb]; no two neighbours equal; no two
    elements equal at all. *)
Definition descending (genotypeCombos : list GenotypeCombo) : Prop :=
  StronglySorted (fun a b => posteriorProb a >= posteriorProb b) genotypeCombos.

Fixpoint adjacentDistinct {A : Type} (eq : A -> A -> bool) (l : list A) : Prop :=
  match l with
  | x :: (y :: _) as tl => eq x y = false /\ adjacentDistinct eq tl
  | _ => True
  end.

Definition pairwiseDistinct {A : Type} (eq : A -> A -> bool) (l : list A) : Prop :=
  ForallOrdPairs (fun x y => eq x y = false) l.

(** The five skip conditions as the specification lists them. *)
Definition listedSkipConditions (p : Parameters) (s : Site) : Prop :=
  nonATGC (currentReferenceBaseString s) = true
  \/ inTarget s = false
  \/ (countAlleles (samples s) < minCoverage p)%Z
  \/ sufficientAlternateObservations (samples s) (minAltCount p) (minAltFraction p) = false
  \/ (List.length (siteGenotypeAlleles s) < 2)%nat.

(** "A site is skipped exactly when one of the five listed conditions
    holds." *)
Definition skippedExactlyWhenListed (p : Parameters) (s : Site) : Prop :=
  (exists why, processSite p s = Skipped why) <-> listedSkipConditions p s.

(** Modelled from the spec: [sufficientAlternateObservations], whose body is
    not under src/.  Section 4.1 has it return true "iff at least one
    non-reference group has >= minCount observations and represents >=
    minFraction of total observations across samples"; where [countAlleles]
    finds no observation there is no group, so the check fails whatever the
    two thresholds are. *)
Definition alternateCheckNeedsObservations : Prop :=
  forall (observed : Samples) (minCount : Z) (minFraction : R),
    countAlleles observed = 0%Z ->
    sufficientAlternateObservations observed minCount minFraction = false.

(** "For every processed site, a record is written if and only if
    [(1 - pHom) >= PVL]." *)
Definition writtenExactlyWhenPassing (p : Parameters) (s : Site) : Prop :=
  forall r, processSite p s = Processed r ->
    ((exists recs, rep_out r = Some recs /\ recs <> [])
     <-> ld_sub 1 (pHom (rep_decision r)) >= PVL p).

(** The prior settings a call of the marginal refinement passes received. *)
Definition refinementArgs (c : Call) : option PriorArgs :=
  match c with
  | call_orderedGenotypeCombo a => Some a
  | call_allLocalGenotypeCombinations _ a => Some a
  | _ => None
  end.

(** The calls the loop makes: only the three helpers of its body, and the
    expansion always with [marginalPriors]. *)
Definition loopCall (p : Parameters) (c : Call) : Prop :=
  match c with
  | call_allLocalGenotypeCombinations _ a => a = marginalPriors p
  | call_marginalGenotypeLikelihoods _ => True
  | call_sortSampleDataLikelihoodsByMarginals _ _ => True
  | _ => False
  end.

(** The outcomes of the re-sorts, one per executed iteration of the marginal
    loop, in order; and the number of executed iterations. *)
Fixpoint resortOutcomes (calls : list Call) : list bool :=
  match calls with
  | [] => []
  | call_sortSampleDataLikelihoodsByMarginals _ changed :: rest =>
      changed :: resortOutcomes rest
  | _ :: rest => resortOutcomes rest
  end.

Fixpoint iterationsStarted (calls : list Call) : nat :=
  match calls with
  | [] => 0
  | call_allLocalGenotypeCombinations _ _ :: rest => S (iterationsStarted rest)
  | _ :: rest => iterationsStarted rest
  end.

(** [p] with other values for [pooled] and [hwePriors]. *)
Definition withPooledHwe (p : Parameters) (pooled' hwePriors' : bool) : Parameters :=
  {| minCoverage := minCoverage p;
     minAltCount := minAltCount p;
     minAltFraction := minAltFraction p;
     excludePartiallyObservedGenotypes := excludePartiallyObservedGenotypes p;
     excludeUnobservedGenotypes := excludeUnobservedGenotypes p;
     RDF := RDF p;
     useMappingQuality := useMappingQuality p;
     genotypeVariantThreshold := genotypeVariantThreshold p;
     expectationMaximization := expectationMaximization p;
     expectationMaximizationMaxIterations := expectationMaximizationMaxIterations p;
     WB := WB p;
     TB := TB p;
     genotypeComboStepMax := genotypeComboStepMax p;
     TH := TH p;
     pooled := pooled';
     permute := permute p;
     hwePriors := hwePriors';
     obsBinomialPriors := obsBinomialPriors p;
     alleleBalancePriors := alleleBalancePriors p;
     diffusionPriorScalar := diffusionPriorScalar p;
     PVL := PVL p;
     calculateMarginals := calculateMarginals p;
     genotypingMaxIterations := genotypingMaxIterations p;
     showReferenceRepeats := showReferenceRepeats p;
     reportAllAlternates := reportAllAlternates p;
     failedFile := failedFile p |}.

(** ** The rest of [main] *)

(** Lines 77-87: the allele kinds handed to the parser, as bits of an [int].
    The values of the [ALLELE_...] constants are not in the sources at hand;
    they are taken as given. *)
Record AlleleFlags := {
  flag_REFERENCE : Z;
  flag_SNP : Z;
  flag_INSERTION : Z;
  flag_DELETION : Z;
  flag_MNP : Z
}.

Definition allowedAlleleTypes (f : AlleleFlags)
    (allowSNPs allowIndels allowMNPs : bool) : Z :=
  let allowed := flag_REFERENCE f in
  let allowed := if allowSNPs then Z.lor allowed (flag_SNP f) else allowed in
  let allowed :=
    if allowIndels
    then Z.lor (Z.lor allowed (flag_INSERTION f)) (flag_DELETION f)
    else allowed in
  if allowMNPs then Z.lor allowed (flag_MNP f) else allowed.

(** What [main] writes to [out]: the header, through [vcfHeader(out,
    parser->reference.filename, parser->sampleList, parameters,
    parser->sequencingTechnologies)] (line 91), and the records, through
    [out << vcf(...)] (lines 554 and 574). *)
Inductive Written :=
| written_header (referenceFilename : string) (sampleList : list string)
    (parameters : Parameters) (sequencingTechnologies : list string)
| written_record (r : VcfArgs).

(** What the parser holds when line 91 is reached. *)
Record Reference := {
  reference_filename : string;
  parser_sampleList : list string;
  parser_sequencingTechnologies : list string
}.

(** Lines 89-99, 182 and 608: the header, then the [while] loop over the
    positions the parser yields, with its two [unsigned long] counters, what
    is written to the output stream ([None] once a position read the front
    of an empty container) and the lines written to the failed-site file. *)
Record Run := {
  total_sites : Z;
  processed_sites : Z;
  run_out : option (list Written);
  run_failed : list FailedLine
}.

(** Lines 89-95; [output] is [parameters.output]. *)
Definition initialRun (output : string) (parser : Reference) (p : Parameters) : Run :=
  {| total_sites := 0;
     processed_sites := 0;
     run_out :=
       Some (if (output =? "vcf")%string
             then [written_header (reference_filename parser)
                     (parser_sampleList parser) p
                     (parser_sequencingTechnologies parser)]
             else []);
     run_failed := [] |}.

Definition runStep (p : Parameters) (st : Run) (s : Site) : Run :=
  let o := processSite p s in
  {| total_sites := ((total_sites st + 1) mod 2 ^ 64)%Z;
     processed_sites :=
       match o with
       | Processed _ => ((processed_sites st + 1) mod 2 ^ 64)%Z
       | Skipped _ => processed_sites st
       end;
     run_out :=
       match run_out st, recordsWritten o with
       | Some before, Some recs => Some (before ++ map written_record recs)
       | _, _ => None
       end;
     run_failed := run_failed st ++ failedWritten o |}.

Definition runSites (output : string) (parser : Reference) (p : Parameters)
    (sites : list Site) : Run :=
  fold_left (runStep p) sites (initialRun output parser p).

(** ** Notions for the further properties *)

(** Whether a pass of the loop body goes past line 182. *)
Definition isProcessed (p : Parameters) (s : Site) : bool :=
  match skipCheck p s with
  | Some _ => false
  | None => true
  end.

(** What the body of the loop of lines 214-271 computes for one sample that
    has no entry in [results] yet: its genotypes with observations, whether
    there are any, its sorted likelihood row and its [Result]. *)
Definition sampleGenotypes (p : Parameters) (s : Site)
    (genotypesByPloidy : list (Z * list Genotype)) (entry : string * Sample)
    : list Genotype :=
  filter (keepsGenotype p (snd entry))
    match map_find (currentSamplePloidy s (fst entry)) genotypesByPloidy with
    | Some gs => gs
    | None => []
    end.

Definition sampleHasData (p : Parameters) (s : Site)
    (genotypesByPloidy : list (Z * list Genotype)) (entry : string * Sample) : bool :=
  match sampleGenotypes p s genotypesByPloidy entry with
  | [] => false
  | _ :: _ => true
  end.

Definition sampleRow (p : Parameters) (s : Site)
    (genotypesByPloidy : list (Z * list Genotype)) (entry : string * Sample)
    : list SampleDataLikelihood :=
  sortSampleDataLikelihoods
    (map (fun pr => {| name := fst entry; sample := snd entry;
                       genotype := fst pr; prob := snd pr; marginal := 0 |})
       (probObservedAllelesGivenGenotypes (snd entry)
          (sampleGenotypes p s genotypesByPloidy entry)
          (RDF p) (useMappingQuality p))).

Definition sampleResult (p : Parameters) (s : Site)
    (genotypesByPloidy : list (Z * list Genotype)) (entry : string * Sample) : Result :=
  {| res_name := fst entry;
     res_observations := Some (snd entry);
     res_data := sampleRow p s genotypesByPloidy entry |}.

(** The first binding of a name among the samples. *)
Definition findSample (sampleName : string) (l : Samples) : option (string * Sample) :=
  find (fun e => (fst e =? sampleName)%string) l.

(** What [results] holds for a name once the samples [done] went through the
    loop. *)
Definition expectedResult (p : Parameters) (s : Site)
    (genotypesByPloidy : list (Z * list Genotype)) (done : Samples)
    (sampleName : string) : option Result :=
  match findSample sampleName done with
  | Some e =>
      if sampleHasData p s genotypesByPloidy e
      then Some (sampleResult p s genotypesByPloidy e)
      else None
  | None => None
  end.

(** What a site writes once it passed line 447: lines 449-590. *)
Definition calledOutput (p : Parameters) (s : Site) : option (list VcfArgs) :=
  let sd := siteData s in
  let l := likelihoodLoop p s (genotypesByPloidy sd) in
  let genotypeCombos := sortUnique (searchCombos p s (siteAlleles sd) l) in
  match genotypeCombos, bestGenotypeCombo genotypeCombos with
  | front :: _, Some best =>
      fst (calledSite p s sd l front best (siteDecision genotypeCombos))
  | _, _ => None
  end.

(** [p] with other values for some settings. *)
Definition withSettings (p : Parameters) (minCoverage' : Z) (PVL' : R)
    (excludePartially' excludeUnobserved' : bool) (maxIterations' : Z) : Parameters :=
  {| minCoverage := minCoverage';
     minAltCount := minAltCount p;
     minAltFraction := minAltFraction p;
     excludePartiallyObservedGenotypes := excludePartially';
     excludeUnobservedGenotypes := excludeUnobserved';
     RDF := RDF p;
     useMappingQuality := useMappingQuality p;
     genotypeVariantThreshold := genotypeVariantThreshold p;
     expectationMaximization := expectationMaximization p;
     expectationMaximizationMaxIterations := expectationMaximizationMaxIterations p;
     WB := WB p;
     TB := TB p;
     genotypeComboStepMax := genotypeComboStepMax p;
     TH := TH p;
     pooled := pooled p;
     permute := permute p;
     hwePriors := hwePriors p;
     obsBinomialPriors := obsBinomialPriors p;
     alleleBalancePriors := alleleBalancePriors p;
     diffusionPriorScalar := diffusionPriorScalar p;
     PVL := PVL';
     calculateMarginals := calculateMarginals p;
     genotypingMaxIterations := maxIterations';
     showReferenceRepeats := showReferenceRepeats p;
     reportAllAlternates := reportAllAlternates p;
     failedFile := failedFile p |}.

Definition withMinCoverage (p : Parameters) (m : Z) : Parameters :=
  withSettings p m (PVL p) (excludePartiallyObservedGenotypes p)
    (excludeUnobservedGenotypes p) (genotypingMaxIterations p).

Definition withPVL (p : Parameters) (v : R) : Parameters :=
  withSettings p (minCoverage p) v (excludePartiallyObservedGenotypes p)
    (excludeUnobservedGenotypes p) (genotypingMaxIterations p).

Definition withExclusion (p : Parameters) (partially unobserved : bool) : Parameters :=
  withSettings p (minCoverage p) (PVL p) partially unobserved
    (genotypingMaxIterations p).

Definition withMaxIterations (p : Parameters) (n : Z) : Parameters :=
  withSettings p (minCoverage p) (PVL p) (excludePartiallyObservedGenotypes p)
    (excludeUnobservedGenotypes p) n.

End Embedding.

(** ** A concrete site

    A one-sample instance of the helpers, used to run the embedding: the
    site has [cov] observations, [altCount] of them for the alternate allele,
    and the alternate-observation check compares that count with the two
    thresholds; genotypes are numbered; the search returns a given combo
    list; the normaliser is the logarithm of the sum of exponentials and
    [safe_exp] is [exp]. *)

Definition demoLikelihood (g : nat) : @SampleDataLikelihood nat unit :=
  {| name := "s1"; sample := tt; genotype := g; prob := 0; marginal := 0 |}.

Definition demoCombo (gs : list nat) (posterior : R) : @GenotypeCombo nat unit :=
  {| members := map demoLikelihood gs;
     probObsGivenGenotypes := 0;
     priorProbG_Af := 0;
     priorProbAf := 0;
     priorProbObservations := 0;
     posteriorProb := posterior |}.

(** Same assignment: the same genotype numbers, sample by sample. *)
Fixpoint sameGenotypes (a b : list (@SampleDataLikelihood nat unit)) : bool :=
  match a, b with
  | [], [] => true
  | x :: a', y :: b' =>
      (name x =? name y)%string && Nat.eqb (genotype x) (genotype y)
      && sameGenotypes a' b'
  | _, _ => false
  end.

Definition demoHelpers (cov altCount : Z) (found : list (@GenotypeCombo nat unit))
    (hom : @GenotypeCombo nat unit -> bool) (alts : list (Allele * Z))
    (resorted : bool) : @Helpers nat unit unit :=
  {| countAlleles := fun _ => cov;
     sufficientAlternateObservations :=
       fun _ minCount minFraction =>
         (0 <? altCount)%Z && (minCount <=? altCount)%Z
         && Rleb (minFraction * IZR cov) (IZR altCount);
     groupAlleles := fun _ => tt;
     genotypeAlleles := fun _ _ all => firstn 2 all;
     allPossibleGenotypes := fun _ _ => [0; 1; 2]%nat;
     sampleHasSupportingObservationsForAllAlleles := fun _ _ => true;
     sampleHasSupportingObservations := fun _ _ => true;
     probObservedAllelesGivenGenotypes := fun _ gs _ _ => map (fun g => (g, 0)) gs;
     sortSampleDataLikelihoods := fun l => l;
     float2phred := fun x => x;
     expl := fun x => roundLD (exp x);
     bandedGenotypeCombinationsIncludingAllHomozygousCombos :=
       fun _ _ _ _ _ _ _ _ _ _ => found;
     expectationMaximizationSearchIncludingAllHomozygousCombos :=
       fun _ _ _ _ _ _ _ _ _ _ _ => found;
     gcrSorter := fun a b => Rltb (posteriorProb b) (posteriorProb a);
     GenotypeCombo_eq := fun a b => sameGenotypes (members a) (members b);
     logsumexp_probs := fun l => ln (fold_right (fun x acc => exp x + acc) 0 l);
     safe_exp := exp;
     isHomozygous := hom;
     emptyCombo := demoCombo [] 0;
     orderedGenotypeCombo := fun c _ _ _ => c;
     allLocalGenotypeCombinations := fun seed _ _ _ _ _ _ => ([seed], seed);
     marginalGenotypeLikelihoods := fun _ sdl => (0, sdl);
     sortSampleDataLikelihoodsByMarginals := fun sdl => (resorted, sdl);
     dataLikelihoodMaxGenotypeCombo :=
       fun _ _ a => demoCombo [if arg_pooled a then 1%nat else 0%nat] 0;
     results_update := fun r _ => r;
     repeatCounts := fun _ _ => [];
     alternateAlleles := fun _ _ => alts |}.

Definition demoParameters (minCov minAlt : Z) (pvl : R) (allAlternates : bool)
    : Parameters :=
  {| minCoverage := minCov;
     minAltCount := minAlt;
     minAltFraction := 0;
     excludePartiallyObservedGenotypes := false;
     excludeUnobservedGenotypes := false;
     RDF := 1;
     useMappingQuality := false;
     genotypeVariantThreshold := 1;
     expectationMaximization := false;
     expectationMaximizationMaxIterations := 5;
     WB := 2;
     TB := 2;
     genotypeComboStepMax := 10;
     TH := 10;
     pooled := false;
     permute := true;
     hwePriors := false;
     obsBinomialPriors := true;
     alleleBalancePriors := true;
     diffusionPriorScalar := 1;
     PVL := pvl;
     calculateMarginals := true;
     genotypingMaxIterations := 3;
     showReferenceRepeats := false;
     reportAllAlternates := allAlternates;
     failedFile := "" |}.

Definition demoSite : @Site unit :=
  {| currentReferenceBaseString := "A";
     currentReferenceBase := "A"%char;
     inTarget := true;
     currentSequenceName := "chr1";
     currentPosition := 100;
     sampleList := ["s1"];
     sequencingTechnologies := [];
     currentSamplePloidy := fun _ => 2%Z;
     samples := [("s1", tt)] |}.

(** Genotype 0 is homozygous reference (A/A), genotype 1 is A/T. *)
Definition homRef : @GenotypeCombo nat unit := demoCombo [0%nat] 0.
Definition hetCombo : @GenotypeCombo nat unit := demoCombo [1%nat] 0.

(** No observation passed the filters: there is no group of alternate
    observations, and the alternate-observation check fails. *)
Definition emptyPileupHelpers : @Helpers nat unit unit :=
  demoHelpers 0 0 [] (fun _ => true) [] false.

(** Twenty observations, two of them for T; the search keeps the homozygous
    reference combo only, which has no alternate allele. *)
Definition homOnlyHelpers : @Helpers nat unit unit :=
  demoHelpers 20 2 [homRef] (fun _ => true) [] false.

(** Twenty observations, ten of them for T; the search finds the
    heterozygous combo, whose alternate is T. *)
Definition hetHelpers : @Helpers nat unit unit :=
  demoHelpers 20 10 [hetCombo] (fun _ => false)
    [(genotypeAllele ALLELE_GENOTYPE "T" 1, 1%Z)] true.

(** The search returns the heterozygous combo with a lower posterior, then
    the homozygous reference combo twice. *)
Definition hetLower : @GenotypeCombo nat unit := demoCombo [1%nat] (-1).

Definition rankedCombos : list (@GenotypeCombo nat unit) := [hetLower; homRef; homRef].

Definition rankedHelpers : @Helpers nat unit unit :=
  demoHelpers 20 10 rankedCombos
    (fun c => sameGenotypes (members c) (members homRef))
    [(genotypeAllele ALLELE_GENOTYPE "T" 1, 1%Z)] false.


(** * Properties *)

(** ** Rounding at 0 and 1 *)

Lemma Int_part_IZR (n : Z) : Int_part (IZR n) = n.
Proof.
  unfold Int_part.
  assert (E : (n + 1)%Z = up (IZR n)).
  { apply tech_up; rewrite plus_IZR; lra. }
  rewrite <- E. lia.
Qed.

Lemma nearestEven_IZR (n : Z) : nearestEven (IZR n) = n.
Proof.
  unfold nearestEven. rewrite Int_part_IZR.
  destruct (Rlt_dec (IZR n - IZR n) (1 / 2)) as [_|Hge]; [reflexivity|lra].
Qed.

Lemma roundLD_0 : roundLD 0 = 0.
Proof.
  unfold roundLD. destruct (Req_dec_T 0 0) as [_|Hne]; [reflexivity|contradiction].
Qed.

(** The least bit of 1 is [2^-63]. *)
Lemma leastBit_of_one : powerRZ 2 (-63) = / IZR (2 ^ 63).
Proof.
  cbn [powerRZ]. rewrite pow_IZR.
  change (Z.of_nat (Pos.to_nat 63)) with 63%Z. reflexivity.
Qed.

Lemma roundLD_1 : roundLD 1 = 1.
Proof.
  assert (Hpos : IZR (2 ^ 63) <> 0) by (apply not_0_IZR; lia).
  unfold roundLD. destruct (Req_dec_T 1 0) as [E|_]; [lra|].
  unfold floorLog2. rewrite Rabs_R1, ln_1.
  replace (0 / ln 2) with (IZR 0) by (unfold Rdiv; rewrite Rmult_0_l; reflexivity).
  rewrite Int_part_IZR.
  change (Z.max (0 - 63) (-16445)) with (-63)%Z.
  rewrite leastBit_of_one.
  replace (1 / / IZR (2 ^ 63)) with (IZR (2 ^ 63)) by (field; exact Hpos).
  rewrite nearestEven_IZR. apply Rinv_r. exact Hpos.
Qed.

(** The sums and differences of 0 and 1 that the sites below compute. *)
Lemma ld_sub_1_0 : ld_sub 1 0 = 1.
Proof. unfold ld_sub. rewrite Rminus_0_r. apply roundLD_1. Qed.

Lemma ld_sub_diag (x : R) : ld_sub x x = 0.
Proof. unfold ld_sub. rewrite Rminus_diag. apply roundLD_0. Qed.

Lemma ld_add_0_1 : ld_add 0 1 = 1.
Proof. unfold ld_add. rewrite Rplus_0_l. apply roundLD_1. Qed.

Section Properties.

Context {Genotype Sample AlleleGroups : Type}
        {H : @Helpers Genotype Sample AlleleGroups}.

(** ** The skip checks *)

(** Once every guard of [skipCheck] is decided, what is left is
    propositional and linear. *)
Ltac skip_cases :=
  repeat match goal with
         | |- _ /\ _ => split
         | |- _ <-> _ => split
         | |- forall _, _ => intro
         | E : exists _, _ |- _ => destruct E
         | E : _ /\ _ |- _ => destruct E
         end;
  try discriminate;
  try solve [eexists; reflexivity];
  try solve [intuition (congruence || lia)].

(** C8.  With the alternate-observation check of section 4.1, which fails
    where there is no observation, a site is skipped exactly when one of the
    five listed conditions holds, and the check that skips it is the one of
    the first listed condition that holds, in this order: the reference base
    is none of A, T, C, G; the position is outside the targets; the coverage
    is below [minCoverage]; the alternate-observation check fails; at most
    one genotype allele is left.  The guard of line 137 sits between the
    target check and the coverage check: a site without observations that it
    skips has a coverage below [minCoverage], or else fails the
    alternate-observation check.  A skipped site writes no record and no
    failed-site line, and its pass through the loop body ends normally.
    (The trace file, which lines 110-124 write to before the target check
    when tracing is on, is outside the embedding.) *)
Theorem skip_checks_in_order (p : Parameters) (s : Site) :
  alternateCheckNeedsObservations ->
  let cov := countAlleles (samples s) in
  let A := nonATGC (currentReferenceBaseString s) = true in
  let B := inTarget s = false in
  let C := (cov < minCoverage p)%Z in
  let D := sufficientAlternateObservations (samples s) (minAltCount p)
             (minAltFraction p) = false in
  let E := (List.length (siteGenotypeAlleles s) < 2)%nat in
  ((exists why, processSite p s = Skipped why) <-> A \/ B \/ C \/ D \/ E)
  /\ (processSite p s = Skipped skip_reference_base <-> A)
  /\ (processSite p s = Skipped skip_not_in_target <-> ~ A /\ B)
  /\ (processSite p s = Skipped skip_low_coverage
      \/ (processSite p s = Skipped skip_zero_coverage /\ C)
      <-> ~ A /\ ~ B /\ C)
  /\ (processSite p s = Skipped skip_alternate_observations
      \/ (processSite p s = Skipped skip_zero_coverage /\ ~ C)
      <-> ~ A /\ ~ B /\ ~ C /\ D)
  /\ (processSite p s = Skipped skip_genotype_alleles
      <-> ~ A /\ ~ B /\ ~ C /\ ~ D /\ E)
  /\ (forall why, processSite p s = Skipped why ->
        recordsWritten (processSite p s) = Some []
        /\ failedWritten (processSite p s) = []).
Proof.
  intros Hspec. cbv zeta.
  pose proof (Hspec (samples s) (minAltCount p) (minAltFraction p)) as Hzero.
  unfold processSite, skipCheck, recordsWritten, failedWritten.
  destruct (nonATGC (currentReferenceBaseString s)) eqn:Ea;
  destruct (inTarget s) eqn:Eb;
  destruct (countAlleles (samples s) =? 0)%Z eqn:Ec0;
  destruct (countAlleles (samples s) <? minCoverage p)%Z eqn:Ec1;
  destruct (sufficientAlternateObservations (samples s) (minAltCount p)
              (minAltFraction p)) eqn:Ed;
  destruct (Z.of_nat (List.length (siteGenotypeAlleles s)) <=? 1)%Z eqn:Ee;
  cbn [negb];
  rewrite ?Z.eqb_eq, ?Z.eqb_neq in Ec0;
  rewrite ?Z.ltb_lt, ?Z.ltb_ge in Ec1;
  rewrite ?Z.leb_le, ?Z.leb_gt in Ee;
  try (specialize (Hzero Ec0); discriminate Hzero);
  clear Hspec Hzero;
  skip_cases.
Qed.

(** The five listed conditions and the checks of lines 104-179, for a site
    whose alternate-observation check does not pass without observations. *)
Lemma skipCheck_listed (p : Parameters) (s : Site) :
  (countAlleles (samples s) = 0%Z ->
   sufficientAlternateObservations (samples s) (minAltCount p) (minAltFraction p)
   = false) ->
  skippedExactlyWhenListed p s.
Proof.
  intros Hzero.
  unfold skippedExactlyWhenListed, listedSkipConditions, processSite, skipCheck.
  destruct (nonATGC (currentReferenceBaseString s)) eqn:Ea;
  destruct (inTarget s) eqn:Eb;
  destruct (countAlleles (samples s) =? 0)%Z eqn:Ec0;
  destruct (countAlleles (samples s) <? minCoverage p)%Z eqn:Ec1;
  destruct (sufficientAlternateObservations (samples s) (minAltCount p)
              (minAltFraction p)) eqn:Ed;
  destruct (Z.of_nat (List.length (siteGenotypeAlleles s)) <=? 1)%Z eqn:Ee;
  cbn [negb];
  rewrite ?Z.eqb_eq, ?Z.eqb_neq in Ec0;
  rewrite ?Z.ltb_lt, ?Z.ltb_ge in Ec1;
  rewrite ?Z.leb_le, ?Z.leb_gt in Ee;
  try (specialize (Hzero Ec0); discriminate Hzero);
  skip_cases.
Qed.

(** X3.  Where the alternate-observation check does not pass without
    observations, the guard of line 137 skips no site that the five listed
    conditions would let through: the site is skipped exactly when one of
    the five holds. *)
Lemma skipped_iff_listed (p : Parameters) (s : Site) :
  (countAlleles (samples s) = 0%Z ->
   sufficientAlternateObservations (samples s) (minAltCount p) (minAltFraction p)
   = false) ->
  skippedExactlyWhenListed p s.
Proof. exact (skipCheck_listed p s). Qed.

(** ** The site decision *)

(** The branches of [siteReport], for a goal that is the same in each. *)
Ltac site_branches :=
  destruct (passesPVL _ _);
  [ destruct (sortUnique _) as [|front rest];
    [reflexivity|destruct (bestGenotypeCombo _); reflexivity]
  | destruct (failedFile _ =? "")%string; reflexivity ].

(** Every branch of [siteReport] records the same combos and decision. *)
Lemma siteReport_combos (p : Parameters) (s : Site) :
  rep_genotypeCombos (siteReport p s)
  = sortUnique (searchCombos p s (siteAlleles (siteData s))
                  (likelihoodLoop p s (genotypesByPloidy (siteData s)))).
Proof.
  unfold siteReport.
  site_branches.
Qed.

Lemma siteReport_decision (p : Parameters) (s : Site) :
  rep_decision (siteReport p s) = siteDecision (rep_genotypeCombos (siteReport p s)).
Proof.
  rewrite siteReport_combos. unfold siteReport.
  site_branches.
Qed.

(** The loop of lines 382-393 moves [pHom] and [pVar] once per homozygous
    combo, in list order, each time by the same term and with the result
    rounded; a heterozygous combo leaves both as they are. *)
Lemma decisionLoop_accumulators (z : R) (combos : list GenotypeCombo) :
  forall (i : nat) (d : Decision),
    pHom (decisionLoop z i combos d)
    = fold_left (fun acc gc => ld_add acc (safe_exp (ld_sub (posteriorProb gc) z)))
        (filter isHomozygous combos) (pHom d)
    /\ pVar (decisionLoop z i combos d)
       = fold_left (fun acc gc => ld_sub acc (safe_exp (ld_sub (posteriorProb gc) z)))
           (filter isHomozygous combos) (pVar d).
Proof.
  induction combos as [|gc rest IH]; intros i d; cbn [decisionLoop filter].
  - split; reflexivity.
  - destruct (IH (S i) (decisionStep z d i gc)) as [IHhom IHvar].
    rewrite IHhom, IHvar. unfold decisionStep.
    destruct (isHomozygous gc); cbn [fold_left pHom pVar].
    + split; reflexivity.
    + destruct (hasHetCombo d); cbn [negb pHom pVar]; split; reflexivity.
Qed.

(** The flags and the pointer after the loop, started at position [i]. *)
Lemma decisionLoop_het (z : R) (combos : list GenotypeCombo) :
  forall (i : nat) (d : Decision),
    let d' := decisionLoop z i combos d in
    if hasHetCombo d then
      hasHetCombo d' = true
      /\ bestCombo d' = bestCombo d
      /\ bestOverallComboIsHet d' = bestOverallComboIsHet d
    else
      match firstHetIndex combos with
      | Some k =>
          hasHetCombo d' = true
          /\ bestCombo d' = Some (i + k)%nat
          /\ bestOverallComboIsHet d'
             = (if Nat.eqb (i + k) 0 then true else bestOverallComboIsHet d)
      | None =>
          hasHetCombo d' = false
          /\ bestCombo d' = bestCombo d
          /\ bestOverallComboIsHet d' = bestOverallComboIsHet d
      end.
Proof.
  induction combos as [|gc rest IH]; intros i d; cbn.
  - destruct (hasHetCombo d) eqn:Ehet; auto.
  - specialize (IH (S i) (decisionStep z d i gc)). cbv zeta in IH.
    unfold decisionStep in *.
    destruct (isHomozygous gc) eqn:Ehom; cbn in *.
    + destruct (hasHetCombo d) eqn:Ehet; [exact IH|].
      destruct (firstHetIndex rest) as [k|]; cbn; [|exact IH].
      replace (i + S k)%nat with (S i + k)%nat by lia. exact IH.
    + destruct (hasHetCombo d) eqn:Ehet; cbn in *.
      * rewrite Ehet in IH. exact IH.
      * rewrite Nat.add_0_r. exact IH.
Qed.

Lemma firstHetIndex_nth (combos : list GenotypeCombo) :
  match firstHetIndex combos with
  | Some k => nth_error combos k = firstHet combos /\ firstHet combos <> None
  | None => firstHet combos = None
  end.
Proof.
  unfold firstHet.
  induction combos as [|gc rest IH]; cbn; [reflexivity|].
  destruct (isHomozygous gc); cbn.
  - destruct (firstHetIndex rest) as [k|]; cbn; exact IH.
  - split; [reflexivity|discriminate].
Qed.

(** [pHom] and [pVar] after line 398. *)
Lemma siteDecision_accumulators (combos : list GenotypeCombo) :
  pHom (siteDecision combos)
  = fold_left (fun acc gc =>
                 ld_add acc (safe_exp (ld_sub (posteriorProb gc)
                                         (posteriorNormalizer combos))))
      (filter isHomozygous combos) 0
  /\ pVar (siteDecision combos)
     = fold_left (fun acc gc =>
                    ld_sub acc (safe_exp (ld_sub (posteriorProb gc)
                                            (posteriorNormalizer combos))))
         (filter isHomozygous combos) 1.
Proof.
  destruct (decisionLoop_accumulators (posteriorNormalizer combos) combos 0
              initialDecision) as [Ehom Evar].
  unfold siteDecision.
  destruct (negb _); cbn [pHom pVar]; rewrite Ehom, Evar; split; reflexivity.
Qed.

(** The pointer [bestCombo] after line 398. *)
Lemma siteDecision_bestCombo (combos : list GenotypeCombo) :
  bestCombo (siteDecision combos)
  = Some (match firstHetIndex combos with Some k => k | None => 0%nat end).
Proof.
  unfold siteDecision.
  pose proof (decisionLoop_het (posteriorNormalizer combos) combos 0 initialDecision) as L.
  cbv zeta in L. cbn [hasHetCombo initialDecision] in L.
  destruct (firstHetIndex combos) as [k|].
  - destruct L as (Ehet & Ebest & _). rewrite Ehet. cbn. exact Ebest.
  - destruct L as (Ehet & _). rewrite Ehet. reflexivity.
Qed.

(** For a non-empty combo list, [bestCombo] points to the first
    heterozygous combo in list order, and to the first combo of the list when
    no combo is heterozygous. *)
Lemma bestGenotypeCombo_spec (front : GenotypeCombo)
    (rest : list GenotypeCombo) :
  let combos := front :: rest in
  bestGenotypeCombo combos
  = Some (match firstHet combos with Some het => het | None => front end)
  /\ bestCombo (siteDecision combos)
     = Some (match firstHetIndex combos with Some k => k | None => 0%nat end)
  /\ (forall k, firstHetIndex combos = Some k ->
        (exists het, nth_error combos k = Some het /\ isHomozygous het = false)
        /\ forall j gc, (j < k)%nat -> nth_error combos j = Some gc ->
                        isHomozygous gc = true).
Proof.
  cbv zeta. split; [|split].
  - unfold bestGenotypeCombo. rewrite siteDecision_bestCombo.
    pose proof (firstHetIndex_nth (front :: rest)) as L.
    destruct (firstHetIndex (front :: rest)) as [k|].
    + destruct L as [Enth Esome]. rewrite Enth.
      destruct (firstHet (front :: rest)); [reflexivity|contradiction].
    + rewrite L. reflexivity.
  - apply siteDecision_bestCombo.
  - generalize (front :: rest). intros combos.
    induction combos as [|gc tl IH]; cbn; intros k Ek; [discriminate|].
    destruct (isHomozygous gc) eqn:Ehom.
    + destruct (firstHetIndex tl) as [k'|]; cbn in Ek; [|discriminate].
      injection Ek as <-. destruct (IH k' eq_refl) as [Hhet Hbefore].
      split; [exact Hhet|].
      intros [|j] g Hlt Hnth; cbn in Hnth.
      * injection Hnth as <-. exact Ehom.
      * apply (Hbefore j g); [lia|exact Hnth].
    + injection Ek as <-. split.
      * exists gc. split; [reflexivity|exact Ehom].
      * intros j g Hlt. lia.
Qed.

(** C3.  At every processed site whose sorted, deduplicated combo list is not
    empty, [bestCombo] is the first heterozygous combo in list order, and the
    first combo of the list when no combo is heterozygous. *)
Theorem bestCombo_first_het_or_front (p : Parameters) (s : Site)
    (front : GenotypeCombo) (rest : list GenotypeCombo) :
  rep_genotypeCombos (siteReport p s) = front :: rest ->
  let combos := rep_genotypeCombos (siteReport p s) in
  bestGenotypeCombo combos
  = Some (match firstHet combos with Some het => het | None => front end)
  /\ bestCombo (rep_decision (siteReport p s))
     = Some (match firstHetIndex combos with Some k => k | None => 0%nat end)
  /\ (forall k, firstHetIndex combos = Some k ->
        (exists het, nth_error combos k = Some het /\ isHomozygous het = false)
        /\ forall j gc, (j < k)%nat -> nth_error combos j = Some gc ->
                        isHomozygous gc = true).
Proof.
  intros Ecombos. cbv zeta. rewrite siteReport_decision, Ecombos.
  exact (bestGenotypeCombo_spec front rest).
Qed.

(** The flag after line 398, for any combo list. *)
Lemma siteDecision_bestOverallComboIsHet (combos : list GenotypeCombo) :
  bestOverallComboIsHet (siteDecision combos)
  = match combos with
    | front :: _ => negb (isHomozygous front)
    | [] => false
    end.
Proof.
  unfold siteDecision.
  pose proof (decisionLoop_het (posteriorNormalizer combos) combos 0 initialDecision) as L.
  cbv zeta in L. cbn [hasHetCombo initialDecision bestOverallComboIsHet Nat.add] in L.
  set (d := decisionLoop (posteriorNormalizer combos) 0 combos initialDecision) in *.
  assert (Eout : bestOverallComboIsHet
                   (if negb (hasHetCombo d)
                    then {| pVar := pVar d; pHom := pHom d;
                            hasHetCombo := hasHetCombo d;
                            bestOverallComboIsHet := bestOverallComboIsHet d;
                            bestCombo := Some 0%nat |}
                    else d)
                 = bestOverallComboIsHet d)
    by (destruct (negb _); reflexivity).
  rewrite Eout. clear Eout.
  destruct combos as [|front rest]; cbn in L.
  - apply L.
  - destruct (isHomozygous front); cbn.
    + destruct (firstHetIndex rest); cbn in L; apply L.
    + apply L.
Qed.

(** ** The variant / invariant partition *)

Lemma siteReport_likelihoods (p : Parameters) (s : Site) :
  rep_likelihoods (siteReport p s)
  = likelihoodLoop p s (genotypesByPloidy (siteData s)).
Proof.
  unfold siteReport.
  site_branches.
Qed.

Lemma likelihoodStep_partition (p : Parameters) (s : Site)
    (gbp : list (Z * list Genotype)) (st : Likelihoods) (entry : string * Sample) :
  variantSampleDataLikelihoods st
    = filter (flaggedVariant p) (sampleDataLikelihoods st) ->
  invariantSampleDataLikelihoods st
    = filter (fun sd => negb (flaggedVariant p sd)) (sampleDataLikelihoods st) ->
  let st' := likelihoodStep p s gbp st entry in
  variantSampleDataLikelihoods st'
    = filter (flaggedVariant p) (sampleDataLikelihoods st')
  /\ invariantSampleDataLikelihoods st'
     = filter (fun sd => negb (flaggedVariant p sd)) (sampleDataLikelihoods st').
Proof.
  intros Hv Hi. unfold likelihoodStep.
  destruct (filter (keepsGenotype p (snd entry)) _) as [|g gs]; cbv zeta.
  - split; assumption.
  - cbn [variantSampleDataLikelihoods invariantSampleDataLikelihoods
         sampleDataLikelihoods].
    rewrite !filter_app. cbn [filter].
    match goal with
    | |- context [flaggedVariant p ?sd] => destruct (flaggedVariant p sd) eqn:Ef
    end; cbn [negb]; rewrite <- Hv, <- Hi, ?app_nil_r; split; reflexivity.
Qed.

Lemma likelihoodLoop_partition (p : Parameters) (s : Site)
    (gbp : list (Z * list Genotype)) :
  let l := likelihoodLoop p s gbp in
  variantSampleDataLikelihoods l
    = filter (flaggedVariant p) (sampleDataLikelihoods l)
  /\ invariantSampleDataLikelihoods l
     = filter (fun sd => negb (flaggedVariant p sd)) (sampleDataLikelihoods l).
Proof.
  unfold likelihoodLoop.
  assert (G : forall todo st,
             variantSampleDataLikelihoods st
               = filter (flaggedVariant p) (sampleDataLikelihoods st) ->
             invariantSampleDataLikelihoods st
               = filter (fun sd => negb (flaggedVariant p sd)) (sampleDataLikelihoods st) ->
             let l := fold_left (likelihoodStep p s gbp) todo st in
             variantSampleDataLikelihoods l
               = filter (flaggedVariant p) (sampleDataLikelihoods l)
             /\ invariantSampleDataLikelihoods l
                = filter (fun sd => negb (flaggedVariant p sd)) (sampleDataLikelihoods l)).
  { induction todo as [|entry todo IH]; intros st Hv Hi; cbn.
    - split; assumption.
    - destruct (likelihoodStep_partition p s gbp st entry Hv Hi) as [Hv' Hi'].
      apply IH; assumption. }
  apply G; reflexivity.
Qed.


(** ** The marginal loop *)

(** The calls of one iteration, followed by those of the rest of the loop
    when the re-sort changed the order. *)
Lemma marginalLoop_calls_step (p : Parameters) (s : Site) (ga : list Allele)
    (n : nat) (i : Z) (best null : GenotypeCombo) (sdl : SampleDataLikelihoods) :
  let seed := if (i =? 0)%Z then best else null in
  let local := allLocalGenotypeCombinations seed sdl (samples s) ga
                 (genotypeComboStepMax p) (TH p) (marginalPriors p) in
  let marg := marginalGenotypeLikelihoods (sortUnique (fst local)) sdl in
  let sorted := sortSampleDataLikelihoodsByMarginals (snd marg) in
  snd (marginalLoop p s ga (S n) i best null sdl)
  = call_allLocalGenotypeCombinations i (marginalPriors p)
    :: call_marginalGenotypeLikelihoods i
    :: call_sortSampleDataLikelihoodsByMarginals i (fst sorted)
    :: (if fst sorted
        then snd (marginalLoop p s ga n (i + 1)%Z
                    (if (i =? 0)%Z then snd local else best)
                    (clear (if (i =? 0)%Z then null else snd local))
                    (snd sorted))
        else []).
Proof.
  cbv zeta. cbn [marginalLoop]. unfold bind, calling. cbn [fst snd app].
  destruct (fst (sortSampleDataLikelihoodsByMarginals _)); reflexivity.
Qed.

Lemma marginalLoop_calls (p : Parameters) (s : Site) (ga : list Allele) (n : nat) :
  forall (i : Z) (best null : GenotypeCombo) (sdl : SampleDataLikelihoods),
    Forall (loopCall p) (snd (marginalLoop p s ga n i best null sdl)).
Proof.
  induction n as [|n IH]; intros i best null sdl.
  - constructor.
  - rewrite marginalLoop_calls_step. cbv zeta.
    repeat (constructor; [exact I || reflexivity|]).
    destruct (fst (sortSampleDataLikelihoodsByMarginals _)); [apply IH|constructor].
Qed.

(** The iteration count and the re-sort outcomes of the loop started with
    [n] iterations to go. *)
Lemma marginalLoop_iterations (p : Parameters) (s : Site) (ga : list Allele) (n : nat) :
  forall (i : Z) (best null : GenotypeCombo) (sdl : SampleDataLikelihoods),
    let calls := snd (marginalLoop p s ga n i best null sdl) in
    (iterationsStarted calls <= n)%nat
    /\ List.length (resortOutcomes calls) = iterationsStarted calls
    /\ (forall k, nth_error (resortOutcomes calls) k = Some false ->
                  S k = iterationsStarted calls)
    /\ ((iterationsStarted calls < n)%nat ->
        exists k, S k = iterationsStarted calls
                  /\ nth_error (resortOutcomes calls) k = Some false).
Proof.
  induction n as [|n IH]; intros i best null sdl.
  - cbn. repeat split; try lia.
    intros [|k] E; discriminate E.
  - cbv zeta. rewrite marginalLoop_calls_step. cbv zeta.
    cbn [iterationsStarted resortOutcomes List.length].
    destruct (fst (sortSampleDataLikelihoodsByMarginals _)).
    + match goal with
      | |- context [marginalLoop p s ga n ?i' ?b' ?n' ?sdl'] =>
          specialize (IH i' b' n' sdl')
      end.
      cbv zeta in IH. destruct IH as (Hle & Hlen & Hstop & Hearly).
      repeat split.
      * lia.
      * rewrite Hlen. reflexivity.
      * intros [|k] E; cbn in E; [discriminate E|].
        rewrite <- (Hstop k E). reflexivity.
      * intros Hlt. destruct Hearly as (k & Ek & Enth); [lia|].
        exists (S k). split; [lia|exact Enth].
    + cbn. repeat split.
      * lia.
      * intros [|[|k]] E; cbn in E; try discriminate E; reflexivity.
      * intros _. exists 0%nat. split; reflexivity.
Qed.

Lemma iterationsStarted_app (a b : list (@Call Genotype Sample)) :
  iterationsStarted (a ++ b) = (iterationsStarted a + iterationsStarted b)%nat.
Proof.
  induction a as [|c a IH]; cbn; [reflexivity|].
  destruct c; cbn; rewrite IH; reflexivity.
Qed.

Lemma resortOutcomes_app (a b : list (@Call Genotype Sample)) :
  resortOutcomes (a ++ b) = resortOutcomes a ++ resortOutcomes b.
Proof.
  induction a as [|c a IH]; cbn; [reflexivity|].
  destruct c; cbn; rewrite IH; reflexivity.
Qed.

(** What [marginals] returns and which calls it makes. *)
Lemma marginals_unfold (p : Parameters) (s : Site) (ga : list Allele)
    (front : GenotypeCombo) (l : Likelihoods) :
  let loop := marginalLoop p s ga (Z.to_nat (genotypingMaxIterations p)) 0%Z
                (orderedGenotypeCombo front (sampleDataLikelihoods l) (TH p)
                   (marginalPriors p))
                emptyCombo (sampleDataLikelihoods l) in
  fst (marginals p s ga front l)
  = (dataLikelihoodMaxGenotypeCombo (fst loop) (TH p) (configuredPriors p),
     fst loop, results_update (results l) (fst loop))
  /\ snd (marginals p s ga front l)
     = call_orderedGenotypeCombo (marginalPriors p)
       :: snd loop ++ [call_dataLikelihoodMaxGenotypeCombo (configuredPriors p)].
Proof.
  cbv zeta. unfold marginals, bind, calling, ret. cbn [fst snd app].
  split; reflexivity.
Qed.

(** The branches of [siteReport], spelled out. *)
Lemma siteReport_cases (p : Parameters) (s : Site) :
  let r := siteReport p s in
  let l := rep_likelihoods r in
  let d := rep_decision r in
  rep_data r = siteData s
  /\ match rep_genotypeCombos r with
     | [] =>
         rep_calls r = [searchCall p l]
         /\ if passesPVL p d then rep_out r = None /\ rep_failed r = []
            else rep_out r = Some []
                 /\ rep_failed r
                    = if (failedFile p =? "")%string then []
                      else failedLines s (siteAlleles (rep_data r))
     | front :: rest =>
         exists best,
           bestGenotypeCombo (front :: rest) = Some best
           /\ if passesPVL p d then
                rep_failed r = []
                /\ if calculateMarginals p then
                     rep_out r
                     = emitRecords p s (rep_data r) d best
                         (dataLikelihoodMaxGenotypeCombo
                            (marginalSorted p s (siteAlleles (rep_data r)) front l)
                            (TH p) (configuredPriors p))
                         (results_update (results l)
                            (marginalSorted p s (siteAlleles (rep_data r)) front l))
                     /\ rep_calls r
                        = searchCall p l
                          :: call_orderedGenotypeCombo (marginalPriors p)
                          :: marginalLoopCalls p s (siteAlleles (rep_data r)) front l
                             ++ [call_dataLikelihoodMaxGenotypeCombo (configuredPriors p)]
                   else
                     rep_out r = emitRecords p s (rep_data r) d best best (results l)
                     /\ rep_calls r = [searchCall p l]
              else
                rep_out r = Some []
                /\ rep_calls r = [searchCall p l]
                /\ rep_failed r
                   = if (failedFile p =? "")%string then []
                     else failedLines s (siteAlleles (rep_data r))
     end.
Proof.
  cbv zeta. rewrite siteReport_likelihoods, siteReport_decision, siteReport_combos.
  unfold siteReport.
  destruct (sortUnique _) as [|front rest] eqn:Ecombos.
  - destruct (passesPVL _ _); [repeat split|].
    destruct (failedFile p =? "")%string; repeat split.
  - destruct (bestGenotypeCombo_spec front rest) as [Ebest _]. cbv zeta in Ebest.
    rewrite Ebest.
    destruct (passesPVL _ _) eqn:Epass.
    + cbn [rep_data rep_out rep_calls rep_failed]. split; [reflexivity|].
      eexists. split; [reflexivity|]. split; [reflexivity|].
      unfold calledSite.
      destruct (calculateMarginals p) eqn:Emarg.
      * destruct (marginals_unfold p s (siteAlleles (siteData s)) front
                    (likelihoodLoop p s (genotypesByPloidy (siteData s))))
          as [Efst Esnd].
        cbv zeta in Efst, Esnd.
        unfold bind, ret. cbn [fst snd]. rewrite app_nil_r, Efst, Esnd.
        split; reflexivity.
      * split; reflexivity.
    + destruct (failedFile p =? "")%string;
        (split; [reflexivity|]); eexists; (split; [reflexivity|]);
        repeat split.
Qed.

(** C5.  Every call of the marginal refinement passes, the ordered seed
    ([orderedGenotypeCombo]) and each expansion
    ([allLocalGenotypeCombinations]), receives [true] for pooled and for
    hwePriors, whatever [pooled] and [hwePriors] the user configured; and
    these calls are made as soon as the site is called with marginals
    enabled. *)
Theorem refinement_priors_forced (p : Parameters) (s : Site) :
  let r := siteReport p s in
  Forall (fun c => forall a, refinementArgs c = Some a ->
                     arg_pooled a = true /\ arg_hwePriors a = true
                     /\ a = marginalPriors p)
         (rep_calls r)
  /\ (forall pooled' hwePriors',
        marginalPriors (withPooledHwe p pooled' hwePriors') = marginalPriors p)
  /\ (rep_genotypeCombos r <> [] -> passesPVL p (rep_decision r) = true ->
      calculateMarginals p = true ->
      In (call_orderedGenotypeCombo (marginalPriors p)) (rep_calls r)
      /\ ((0 < genotypingMaxIterations p)%Z ->
          In (call_allLocalGenotypeCombinations 0 (marginalPriors p)) (rep_calls r))).
Proof.
  cbv zeta.
  pose proof (siteReport_cases p s) as C. cbv zeta in C. destruct C as [Edata C].
  split; [|split].
  - assert (Gsearch : forall a : PriorArgs,
              refinementArgs (searchCall p (rep_likelihoods (siteReport p s))) = Some a ->
              arg_pooled a = true /\ arg_hwePriors a = true /\ a = marginalPriors p)
      by (intros a E; discriminate E).
    destruct (rep_genotypeCombos (siteReport p s)) as [|front rest].
    + destruct C as (-> & _). constructor; [exact Gsearch|constructor].
    + destruct C as (best & _ & C).
      destruct (passesPVL p _).
      * destruct C as [_ C]. destruct (calculateMarginals p).
        -- destruct C as [_ ->].
           constructor; [exact Gsearch|].
           constructor; [intros a E; injection E as <-; repeat split|].
           apply Forall_app. split.
           ++ unfold marginalLoopCalls.
              eapply Forall_impl; [|apply marginalLoop_calls].
              intros c Hc a' E.
              destruct c; cbn in Hc, E; try discriminate E; try contradiction.
              injection E as <-. subst. repeat split.
           ++ constructor; [intros a E; discriminate E|constructor].
        -- destruct C as [_ ->]. constructor; [exact Gsearch|constructor].
      * destruct C as (_ & -> & _). constructor; [exact Gsearch|constructor].
  - intros pooled' hwePriors'. reflexivity.
  - intros Hne Hpass Hmarg.
    destruct (rep_genotypeCombos (siteReport p s)) as [|front rest]; [contradiction|].
    destruct C as (best & _ & C). rewrite Hpass, Hmarg in C.
    destruct C as (_ & _ & ->). split.
    + right. left. reflexivity.
    + intros Hpos. right. right. apply in_or_app. left.
      unfold marginalLoopCalls.
      destruct (Z.to_nat (genotypingMaxIterations p)) as [|n] eqn:En; [lia|].
      rewrite marginalLoop_calls_step. cbv zeta. left. reflexivity.
Qed.

(** C6.  At every site the marginal loop starts at most
    [genotypingMaxIterations] iterations; each started iteration ends with
    one re-sort; an iteration whose re-sort reports no change is the last
    one; and when the loop stops before the cap, its last re-sort reported no
    change. *)
Theorem marginal_loop_bounded (p : Parameters) (s : Site) :
  let calls := rep_calls (siteReport p s) in
  (iterationsStarted calls <= Z.to_nat (genotypingMaxIterations p))%nat
  /\ List.length (resortOutcomes calls) = iterationsStarted calls
  /\ (forall k, nth_error (resortOutcomes calls) k = Some false ->
                S k = iterationsStarted calls)
  /\ (In (call_orderedGenotypeCombo (marginalPriors p)) calls ->
      (iterationsStarted calls < Z.to_nat (genotypingMaxIterations p))%nat ->
      exists k, S k = iterationsStarted calls
                /\ nth_error (resortOutcomes calls) k = Some false).
Proof.
  cbv zeta.
  pose proof (siteReport_cases p s) as C. cbv zeta in C. destruct C as [Edata C].
  assert (Gnone : rep_calls (siteReport p s)
                  = [searchCall p (rep_likelihoods (siteReport p s))] ->
                  (iterationsStarted (rep_calls (siteReport p s))
                   <= Z.to_nat (genotypingMaxIterations p))%nat
                  /\ List.length (resortOutcomes (rep_calls (siteReport p s)))
                     = iterationsStarted (rep_calls (siteReport p s))
                  /\ (forall k, nth_error (resortOutcomes (rep_calls (siteReport p s))) k
                                = Some false ->
                                S k = iterationsStarted (rep_calls (siteReport p s)))
                  /\ (In (call_orderedGenotypeCombo (marginalPriors p))
                         (rep_calls (siteReport p s)) ->
                      (iterationsStarted (rep_calls (siteReport p s))
                       < Z.to_nat (genotypingMaxIterations p))%nat ->
                      exists k, S k = iterationsStarted (rep_calls (siteReport p s))
                                /\ nth_error (resortOutcomes (rep_calls (siteReport p s))) k
                                   = Some false)).
  { intros ->. cbn. repeat split; try lia.
    - intros [|k] E; discriminate E.
    - intros [E|[]]. discriminate E. }
  destruct (rep_genotypeCombos (siteReport p s)) as [|front rest].
  - apply Gnone. apply C.
  - destruct C as (best & _ & C).
    destruct (passesPVL p _); [|apply Gnone; apply C].
    destruct C as [_ C].
    destruct (calculateMarginals p); [|apply Gnone; apply C].
    destruct C as [_ ->].
    cbn [iterationsStarted resortOutcomes searchCall].
    rewrite iterationsStarted_app, resortOutcomes_app. cbn.
    rewrite Nat.add_0_r, app_nil_r.
    unfold marginalLoopCalls.
    pose proof (marginalLoop_iterations p s (siteAlleles (rep_data (siteReport p s)))
                  (Z.to_nat (genotypingMaxIterations p)) 0%Z
                  (orderedGenotypeCombo front
                     (sampleDataLikelihoods (rep_likelihoods (siteReport p s)))
                     (TH p) (marginalPriors p))
                  emptyCombo
                  (sampleDataLikelihoods (rep_likelihoods (siteReport p s)))) as L.
    cbv zeta in L. destruct L as (Hle & Hlen & Hstop & Hearly).
    repeat split; try assumption.
    intros _ Hlt. apply Hearly. exact Hlt.
Qed.

(** ** Output *)

Lemma passesPVL_iff (p : Parameters) (d : Decision) :
  passesPVL p d = true <-> ld_sub 1 (pHom d) >= PVL p.
Proof.
  unfold passesPVL. destruct (Rge_dec _ _) as [Hge|Hlt].
  - split; [intros _; exact Hge|reflexivity].
  - split; [discriminate|]. intros Hge. contradiction.
Qed.

Lemma passesPVL_false_iff (p : Parameters) (d : Decision) :
  passesPVL p d = false <-> ld_sub 1 (pHom d) < PVL p.
Proof.
  unfold passesPVL. destruct (Rge_dec _ _) as [Hge|Hlt].
  - split; [discriminate|]. intros Hlt. lra.
  - split; [|reflexivity]. intros _. lra.
Qed.

(** Every record of one site carries the same decision, combo and results. *)
Lemma emitRecords_fields (p : Parameters) (s : Site) (sd : SiteData)
    (d : Decision) (best comboForVcf : GenotypeCombo) (res : Results)
    (recs : list VcfArgs) (rec : VcfArgs) :
  emitRecords p s sd d best comboForVcf res = Some recs -> In rec recs ->
  vcf_combo rec = comboForVcf
  /\ vcf_results rec = res
  /\ vcf_pHom rec = pHom d
  /\ vcf_bestOverallComboIsHet rec = bestOverallComboIsHet d.
Proof.
  unfold emitRecords. cbv zeta.
  destruct (reportAllAlternates p).
  - intros E Hin. injection E as <-. apply in_map_iff in Hin.
    destruct Hin as (a & <- & _). repeat split.
  - destruct (alternateAlleles best _) as [|a alts]; [discriminate|].
    intros E Hin. injection E as <-. destruct Hin as [<-|[]]. repeat split.
Qed.

(** How many records [emitRecords] writes. *)
Lemma emitRecords_length (p : Parameters) (s : Site) (sd : SiteData)
    (d : Decision) (best comboForVcf : GenotypeCombo) (res : Results) :
  let alts := alternateAlleles best (String (currentReferenceBase s) "") in
  match emitRecords p s sd d best comboForVcf res with
  | Some recs =>
      List.length recs
      = (if reportAllAlternates p then List.length alts else 1%nat)
      /\ (reportAllAlternates p = false -> alts <> [])
  | None => reportAllAlternates p = false /\ alts = []
  end.
Proof.
  unfold emitRecords. cbv zeta.
  destruct (reportAllAlternates p).
  - split; [apply length_map|discriminate].
  - destruct (alternateAlleles best _) as [|a alts].
    + split; reflexivity.
    + split; [reflexivity|]. intros _. discriminate.
Qed.

(** Which alternates the records of [emitRecords] are written for. *)
Lemma emitRecords_alts (p : Parameters) (s : Site) (sd : SiteData)
    (d : Decision) (best comboForVcf : GenotypeCombo) (res : Results)
    (recs : list VcfArgs) :
  let alts := alternateAlleles best (String (currentReferenceBase s) "") in
  emitRecords p s sd d best comboForVcf res = Some recs ->
  map vcf_alt recs
  = map fst (if reportAllAlternates p then alts else firstn 1 alts).
Proof.
  unfold emitRecords. cbv zeta.
  destruct (reportAllAlternates p).
  - intros E. injection E as <-. rewrite map_map. reflexivity.
  - destruct (alternateAlleles best _) as [|a alts]; [discriminate|].
    intros E. injection E as <-. reflexivity.
Qed.


(** C2, as amended.  A record is written only if [(1 - pHom) >= PVL], and,
    where [front()] is applied to non-empty containers only, exactly when
    [(1 - pHom) >= PVL] and [bestCombo] has at least one alternate allele:
    one record per alternate with [reportAllAlternates], one record for the
    first alternate otherwise.  When [(1 - pHom) < PVL] no record is written
    and the helpers of the marginals are not called; failed-site lines are
    written only then, and only with a failed-site file configured.
    [1 - pHom] is the difference line 447 computes, on [long double]. *)
Theorem record_written_iff (p : Parameters) (s : Site) :
  let r := siteReport p s in
  let d := rep_decision r in
  let combos := rep_genotypeCombos r in
  (forall recs, rep_out r = Some recs ->
     (recs <> [] <->
      ld_sub 1 (pHom d) >= PVL p
      /\ exists alts, siteAlternates s combos = Some alts /\ alts <> [])
     /\ (ld_sub 1 (pHom d) >= PVL p ->
         forall alts, siteAlternates s combos = Some alts ->
           List.length recs
           = if reportAllAlternates p then List.length alts else 1%nat))
  /\ (forall recs alts, rep_out r = Some recs -> ld_sub 1 (pHom d) >= PVL p ->
        siteAlternates s combos = Some alts ->
        map vcf_alt recs
        = map fst (if reportAllAlternates p then alts else firstn 1 alts))
  /\ (ld_sub 1 (pHom d) < PVL p ->
      rep_out r = Some []
      /\ rep_calls r = [searchCall p (rep_likelihoods r)])
  /\ (rep_failed r <> [] -> ld_sub 1 (pHom d) < PVL p /\ failedFile p <> "")
  /\ (rep_out r = None <->
      ld_sub 1 (pHom d) >= PVL p
      /\ (combos = []
          \/ (reportAllAlternates p = false
              /\ siteAlternates s combos = Some []))).
Proof.
  cbv zeta.
  pose proof (siteReport_cases p s) as C. cbv zeta in C. destruct C as [Edata C].
  unfold siteAlternates.
  assert (Gfail : forall combos : list GenotypeCombo,
            ld_sub 1 (pHom (rep_decision (siteReport p s))) < PVL p ->
            rep_out (siteReport p s) = Some [] ->
            rep_calls (siteReport p s)
            = [searchCall p (rep_likelihoods (siteReport p s))] ->
            rep_failed (siteReport p s)
            = (if (failedFile p =? "")%string then []
               else failedLines s (siteAlleles (rep_data (siteReport p s)))) ->
            (forall recs, rep_out (siteReport p s) = Some recs ->
               (recs <> [] <->
                ld_sub 1 (pHom (rep_decision (siteReport p s))) >= PVL p
                /\ exists alts,
                     match bestGenotypeCombo combos with
                     | Some best =>
                         Some (alternateAlleles best
                                 (String (currentReferenceBase s) ""))
                     | None => None
                     end = Some alts /\ alts <> [])
               /\ (ld_sub 1 (pHom (rep_decision (siteReport p s))) >= PVL p ->
                   forall alts,
                     match bestGenotypeCombo combos with
                     | Some best =>
                         Some (alternateAlleles best
                                 (String (currentReferenceBase s) ""))
                     | None => None
                     end = Some alts ->
                     List.length recs
                     = if reportAllAlternates p then List.length alts else 1%nat))
            /\ (forall recs alts, rep_out (siteReport p s) = Some recs ->
                  ld_sub 1 (pHom (rep_decision (siteReport p s))) >= PVL p ->
                  match bestGenotypeCombo combos with
                  | Some best =>
                      Some (alternateAlleles best
                              (String (currentReferenceBase s) ""))
                  | None => None
                  end = Some alts ->
                  map vcf_alt recs
                  = map fst (if reportAllAlternates p then alts else firstn 1 alts))
            /\ (ld_sub 1 (pHom (rep_decision (siteReport p s))) < PVL p ->
                rep_out (siteReport p s) = Some []
                /\ rep_calls (siteReport p s)
                   = [searchCall p (rep_likelihoods (siteReport p s))])
            /\ (rep_failed (siteReport p s) <> [] ->
                ld_sub 1 (pHom (rep_decision (siteReport p s))) < PVL p
                /\ failedFile p <> "")
            /\ (rep_out (siteReport p s) = None <->
                ld_sub 1 (pHom (rep_decision (siteReport p s))) >= PVL p
                /\ (combos = []
                    \/ (reportAllAlternates p = false
                        /\ match bestGenotypeCombo combos with
                           | Some best =>
                               Some (alternateAlleles best
                                       (String (currentReferenceBase s) ""))
                           | None => None
                           end = Some [])))).
  { intros combos Hlt Eout Ecalls Efailed. rewrite Eout, Ecalls, Efailed.
    split; [|split; [|split; [|split; [|split]]]].
    - intros recs E. injection E as <-. split.
      + split; [contradiction|]. intros [Hge _]. lra.
      + intros Hge. lra.
    - intros recs alts _ Hge. lra.
    - intros _. split; reflexivity.
    - intros Hne. split; [exact Hlt|].
      intros Efile. rewrite Efile in Hne. cbn in Hne. contradiction.
    - discriminate.
    - intros [Hge _]. lra. }
  destruct (rep_genotypeCombos (siteReport p s)) as [|front rest].
  - destruct C as (Ecalls & C).
    destruct (passesPVL p (rep_decision (siteReport p s))) eqn:Epass.
    + apply passesPVL_iff in Epass. destruct C as [Eout Efailed].
      rewrite Eout, Efailed.
      split; [intros recs E; discriminate E|].
      split; [intros recs alts E; discriminate E|].
      split; [intros Hlt; lra|].
      split; [intros Hne; contradiction|].
      split; [intros _|reflexivity].
      split; [exact Epass|left; reflexivity].
    + apply passesPVL_false_iff in Epass. destruct C as [Eout Efailed].
      apply Gfail; assumption.
  - destruct C as (best & Ebest & C). rewrite Ebest.
    destruct (passesPVL p (rep_decision (siteReport p s))) eqn:Epass.
    + apply passesPVL_iff in Epass.
      destruct C as (Efailed & C). rewrite Efailed.
      assert (G : forall comboForVcf res,
                 rep_out (siteReport p s)
                 = emitRecords p s (rep_data (siteReport p s))
                     (rep_decision (siteReport p s)) best comboForVcf res ->
                 (forall recs, rep_out (siteReport p s) = Some recs ->
                    (recs <> [] <->
                     ld_sub 1 (pHom (rep_decision (siteReport p s))) >= PVL p
                     /\ exists alts,
                          Some (alternateAlleles best (String (currentReferenceBase s) ""))
                          = Some alts /\ alts <> [])
                    /\ (ld_sub 1 (pHom (rep_decision (siteReport p s))) >= PVL p ->
                        forall alts,
                          Some (alternateAlleles best (String (currentReferenceBase s) ""))
                          = Some alts ->
                          List.length recs
                          = if reportAllAlternates p then List.length alts else 1%nat))
                 /\ (rep_out (siteReport p s) = None <->
                     ld_sub 1 (pHom (rep_decision (siteReport p s))) >= PVL p
                     /\ (front :: rest = []
                         \/ (reportAllAlternates p = false
                             /\ Some (alternateAlleles best
                                        (String (currentReferenceBase s) ""))
                                = Some [])))).
      { intros comboForVcf res Eout. rewrite Eout.
        pose proof (emitRecords_length p s (rep_data (siteReport p s))
                      (rep_decision (siteReport p s)) best comboForVcf res) as L.
        cbv zeta in L. revert L.
        destruct (emitRecords p s (rep_data (siteReport p s))
                    (rep_decision (siteReport p s)) best comboForVcf res)
          as [recs|]; intros L.
        - destruct L as [Elen Hne]. split.
          + intros recs' E. injection E as <-. split.
            * split.
              -- intros Hrecs. split; [exact Epass|].
                 eexists. split; [reflexivity|].
                 intros Ealts. rewrite Ealts in *.
                 destruct (reportAllAlternates p).
                 ++ destruct recs; [contradiction|discriminate Elen].
                 ++ apply Hne; reflexivity.
              -- intros (_ & alts & E & Halts). injection E as <-.
                 intros ->. cbn in Elen.
                 destruct (reportAllAlternates p); [|discriminate Elen].
                 destruct (alternateAlleles best _); [contradiction|discriminate Elen].
            * intros _ alts E. injection E as <-. exact Elen.
          + split; [discriminate|].
            intros (_ & [E|(Hrep & E)]); [discriminate E|].
            injection E as E. exfalso. apply Hne; assumption.
        - destruct L as [Hrep Ealts]. split.
          + intros recs E. discriminate E.
          + split; [|reflexivity]. intros _. split; [exact Epass|]. right.
            rewrite Ealts. split; [assumption|reflexivity]. }
      assert (Rout : exists comboForVcf res,
                 rep_out (siteReport p s)
                 = emitRecords p s (rep_data (siteReport p s))
                     (rep_decision (siteReport p s)) best comboForVcf res).
      { destruct (calculateMarginals p); destruct C as [Eout _];
          eexists; eexists; exact Eout. }
      destruct Rout as (comboForVcf & res & Eout).
      destruct (G comboForVcf res Eout) as [G1 G2].
      split; [exact G1|]. split; [|split; [intros Hlt; lra|]].
      * intros recs alts Erecs _ Ealts. injection Ealts as <-.
        rewrite Eout in Erecs.
        apply (emitRecords_alts _ _ _ _ _ _ _ _ Erecs).
      * split; [intros Hne; contradiction|exact G2].
    + apply passesPVL_false_iff in Epass.
      destruct C as (Eout & Ecalls & Efailed).
      pose proof (Gfail (front :: rest) Epass Eout Ecalls Efailed) as F.
      rewrite Ebest in F. exact F.
Qed.

(** Every written record carries the site's [pHom] and
    [bestOverallComboIsHet]. *)
Lemma siteReport_out_records (p : Parameters) (s : Site)
    (recs : list VcfArgs) (rec : VcfArgs) :
  rep_out (siteReport p s) = Some recs -> In rec recs ->
  vcf_pHom rec = pHom (rep_decision (siteReport p s))
  /\ vcf_bestOverallComboIsHet rec
     = bestOverallComboIsHet (rep_decision (siteReport p s)).
Proof.
  pose proof (siteReport_cases p s) as C. cbv zeta in C. destruct C as [Edata C].
  destruct (rep_genotypeCombos (siteReport p s)) as [|front rest].
  - destruct C as (_ & C).
    destruct (passesPVL p _); destruct C as [-> _]; [discriminate|].
    intros E Hin. injection E as <-. destruct Hin.
  - destruct C as (best & _ & C).
    destruct (passesPVL p _).
    + destruct C as [_ C].
      destruct (calculateMarginals p); destruct C as [-> _]; intros E Hin;
        apply (emitRecords_fields _ _ _ _ _ _ _ _ _ E Hin).
    + destruct C as (-> & _). intros E Hin. injection E as <-. destruct Hin.
Qed.

(** C9.  At every processed site [bestOverallComboIsHet] is true exactly when
    the sorted, deduplicated combo list has a first combo and that combo is
    heterozygous; this is the flag every written record carries. *)
Theorem bestOverallComboIsHet_iff (p : Parameters) (s : Site) :
  let r := siteReport p s in
  (bestOverallComboIsHet (rep_decision r) = true
   <-> exists front rest,
         rep_genotypeCombos r = front :: rest /\ isHomozygous front = false)
  /\ (forall recs rec, rep_out r = Some recs -> In rec recs ->
        vcf_bestOverallComboIsHet rec = bestOverallComboIsHet (rep_decision r)).
Proof.
  cbv zeta. split.
  - rewrite siteReport_decision, siteDecision_bestOverallComboIsHet.
    destruct (rep_genotypeCombos (siteReport p s)) as [|front rest].
    + split; [discriminate|]. intros (f & r & E & _). discriminate E.
    + rewrite negb_true_iff. split.
      * intros Ehom. exists front, rest. split; [reflexivity|exact Ehom].
      * intros (f & r & E & Ehom). injection E as <- <-. exact Ehom.
  - intros recs rec Eout Hin.
    apply (siteReport_out_records p s recs rec Eout Hin).
Qed.

(** ** Sort and deduplicate *)

Lemma unique_after_adjacent {A : Type} (eq : A -> A -> bool) (l : list A) :
  forall kept, adjacentDistinct eq (kept :: unique_after eq kept l).
Proof.
  induction l as [|y l IH]; intros kept; cbn [unique_after].
  - exact I.
  - destruct (eq kept y) eqn:E.
    + apply IH.
    + split; [exact E|apply IH].
Qed.

(** [unique()] leaves no two neighbours that compare equal. *)
Lemma list_unique_adjacent {A : Type} (eq : A -> A -> bool) (l : list A) :
  adjacentDistinct eq (list_unique eq l).
Proof.
  destruct l as [|x l]; [exact I|]. apply unique_after_adjacent.
Qed.

Lemma unique_after_In {A : Type} (eq : A -> A -> bool) (l : list A) :
  forall kept z, In z (unique_after eq kept l) -> In z l.
Proof.
  induction l as [|y l IH]; intros kept z; cbn [unique_after]; [tauto|].
  destruct (eq kept y).
  - intros Hin. right. apply (IH kept z Hin).
  - intros [<-|Hin]; [left; reflexivity|right; apply (IH y z Hin)].
Qed.

Lemma sort_insert_In {A : Type} (comp : A -> A -> bool) (x : A) (l : list A) :
  forall z, In z (sort_insert comp x l) -> z = x \/ In z l.
Proof.
  induction l as [|y l IH]; intros z; cbn [sort_insert].
  - intros [<-|[]]. left. reflexivity.
  - destruct (comp y x).
    + intros [<-|Hin]; [right; left; reflexivity|].
      destruct (IH z Hin) as [->|Hl]; [left; reflexivity|right; right; exact Hl].
    + intros [<-|Hin]; [left; reflexivity|right; exact Hin].
Qed.

Section TieBreakingComparator.

(** A comparator that is a strict weak ordering and leaves tied exactly the
    elements that compare equal. *)
Context {A : Type} (comp eq : A -> A -> bool).
Hypothesis comp_asym : forall a b, comp a b = true -> comp b a = false.
Hypothesis comp_cotrans :
  forall a b c, comp a c = true -> comp a b = true \/ comp b c = true.
Hypothesis tie_eq : forall a b, comp a b = false -> comp b a = false -> eq a b = true.
Hypothesis eq_tie : forall a b, eq a b = true -> comp a b = false.

Lemma sort_insert_sorted (x : A) (l : list A) :
  StronglySorted (fun a b => comp b a = false) l ->
  StronglySorted (fun a b => comp b a = false) (sort_insert comp x l).
Proof.
  induction l as [|y l IH]; intros Hsorted; cbn [sort_insert].
  - constructor; constructor.
  - apply StronglySorted_inv in Hsorted. destruct Hsorted as [Hl Hy].
    destruct (comp y x) eqn:Eyx.
    + constructor; [apply IH; exact Hl|].
      apply Forall_forall. intros z Hin.
      destruct (sort_insert_In _ _ _ _ Hin) as [->|Hz].
      * apply comp_asym. exact Eyx.
      * rewrite Forall_forall in Hy. apply Hy. exact Hz.
    + constructor; [constructor; assumption|].
      constructor; [exact Eyx|].
      apply Forall_forall. intros z Hz.
      rewrite Forall_forall in Hy. specialize (Hy z Hz).
      destruct (comp z x) eqn:Ezx; [|reflexivity].
      destruct (comp_cotrans z y x Ezx) as [E|E]; congruence.
Qed.

Lemma list_sort_sorted (l : list A) :
  StronglySorted (fun a b => comp b a = false) (list_sort comp l).
Proof.
  induction l as [|x l IH]; cbn.
  - constructor.
  - apply sort_insert_sorted. exact IH.
Qed.

Lemma unique_after_sorted (l : list A) :
  forall kept,
    StronglySorted (fun a b => comp b a = false) l ->
    StronglySorted (fun a b => comp b a = false) (unique_after eq kept l).
Proof.
  induction l as [|y l IH]; intros kept Hsorted; cbn [unique_after].
  - constructor.
  - apply StronglySorted_inv in Hsorted. destruct Hsorted as [Hl Hy].
    destruct (eq kept y).
    + apply IH. exact Hl.
    + constructor; [apply IH; exact Hl|].
      apply Forall_forall. intros z Hin.
      rewrite Forall_forall in Hy. apply Hy.
      apply (unique_after_In _ _ _ _ Hin).
Qed.

(** In a sorted list, an element that differs from its right neighbour
    differs from everything after it. *)
Lemma sorted_adjacent_pairwise (l : list A) :
  StronglySorted (fun a b => comp b a = false) l ->
  adjacentDistinct eq l -> pairwiseDistinct eq l.
Proof.
  unfold pairwiseDistinct.
  induction l as [|x l IH]; intros Hsorted Hadj; [constructor|].
  apply StronglySorted_inv in Hsorted. destruct Hsorted as [Hl Hx].
  destruct l as [|z l]; [constructor; constructor|].
  destruct Hadj as [Exz Hadj].
  constructor; [|apply IH; assumption].
  constructor; [exact Exz|].
  apply Forall_forall. intros b Hb.
  destruct (eq x b) eqn:Exb; [|reflexivity]. exfalso.
  apply StronglySorted_inv in Hl. destruct Hl as [_ Hz].
  rewrite Forall_forall in Hz. specialize (Hz b Hb). cbn in Hz.
  apply Forall_inv in Hx. cbn in Hx.
  assert (Ezx' : comp x z = false).
  { destruct (comp x z) eqn:E; [|reflexivity].
    destruct (comp_cotrans x b z E) as [E'|E']; [|congruence].
    rewrite (eq_tie x b Exb) in E'. discriminate E'. }
  rewrite (tie_eq x z Ezx' Hx) in Exz. discriminate Exz.
Qed.

(** X2.  With such a comparator, sort followed by [unique()] leaves no two
    equal elements anywhere in the list. *)
Lemma sort_unique_pairwiseDistinct (l : list A) :
  pairwiseDistinct eq (list_unique eq (list_sort comp l)).
Proof.
  apply sorted_adjacent_pairwise; [|apply list_unique_adjacent].
  pose proof (list_sort_sorted l) as Hsorted.
  unfold list_unique.
  destruct (list_sort comp l) as [|x l']; [constructor|].
  apply StronglySorted_inv in Hsorted. destruct Hsorted as [Hl Hx].
  constructor; [apply unique_after_sorted; exact Hl|].
  apply Forall_forall. intros z Hin.
  rewrite Forall_forall in Hx. apply Hx. apply (unique_after_In _ _ _ _ Hin).
Qed.

End TieBreakingComparator.

Section SortedByPosterior.

(** The comparator as the design describes it: descending [posteriorProb]. *)
Hypothesis gcrSorter_posterior :
  forall a b, gcrSorter a b = Rltb (posteriorProb b) (posteriorProb a).

Lemma sort_insert_descending (x : GenotypeCombo) (l : list GenotypeCombo) :
  descending l -> descending (sort_insert gcrSorter x l).
Proof.
  unfold descending.
  induction l as [|y l IH]; intros Hsorted; cbn [sort_insert].
  - constructor; constructor.
  - apply StronglySorted_inv in Hsorted. destruct Hsorted as [Hl Hy].
    rewrite gcrSorter_posterior. unfold Rltb.
    destruct (Rlt_dec (posteriorProb x) (posteriorProb y)) as [Hlt|Hge].
    + constructor; [apply IH; exact Hl|].
      apply Forall_forall. intros z Hin.
      destruct (sort_insert_In _ _ _ _ Hin) as [->|Hz]; [lra|].
      rewrite Forall_forall in Hy. apply Hy. exact Hz.
    + constructor; [constructor; assumption|].
      constructor; [lra|].
      eapply Forall_impl; [|exact Hy]. cbn. intros z Hz. lra.
Qed.

Lemma list_sort_descending (l : list GenotypeCombo) :
  descending (list_sort gcrSorter l).
Proof.
  induction l as [|x l IH]; cbn.
  - constructor.
  - apply sort_insert_descending. exact IH.
Qed.

Lemma unique_after_descending (l : list GenotypeCombo) :
  forall kept, descending l -> descending (unique_after GenotypeCombo_eq kept l).
Proof.
  unfold descending.
  induction l as [|y l IH]; intros kept Hsorted; cbn [unique_after].
  - constructor.
  - apply StronglySorted_inv in Hsorted. destruct Hsorted as [Hl Hy].
    destruct (GenotypeCombo_eq kept y).
    + apply IH. exact Hl.
    + constructor; [apply IH; exact Hl|].
      apply Forall_forall. intros z Hin.
      rewrite Forall_forall in Hy. apply Hy.
      apply (unique_after_In _ _ _ _ Hin).
Qed.

(** X1.  With that comparator, lines 347-349 leave the list sorted by
    descending [posteriorProb] and without equal neighbours. *)
Lemma sortUnique_descending (combos : list GenotypeCombo) :
  descending (sortUnique combos)
  /\ adjacentDistinct GenotypeCombo_eq (sortUnique combos).
Proof.
  split; [|apply list_unique_adjacent].
  unfold sortUnique, list_unique.
  pose proof (list_sort_descending combos) as Hsorted.
  destruct (list_sort gcrSorter combos) as [|x l]; [constructor|].
  unfold descending in *.
  apply StronglySorted_inv in Hsorted. destruct Hsorted as [Hl Hx].
  constructor; [apply unique_after_descending; exact Hl|].
  apply Forall_forall. intros z Hin.
  rewrite Forall_forall in Hx. apply Hx. apply (unique_after_In _ _ _ _ Hin).
Qed.

End SortedByPosterior.

End Properties.

(** * Further properties of [main] *)

Section FurtherProperties.

Context {Genotype Sample AlleleGroups : Type}
        {H : @Helpers Genotype Sample AlleleGroups}.

(** ** Genotypes per ploidy *)

Lemma map_find_insert_same {V : Type} (k : Z) (v : V) (m : list (Z * V)) :
  map_find k (map_insert k v m) = Some v.
Proof.
  induction m as [|[k' v'] m IH]; cbn.
  - rewrite Z.eqb_refl. reflexivity.
  - destruct (k <? k')%Z eqn:Elt; cbn.
    + rewrite Z.eqb_refl. reflexivity.
    + destruct (k =? k')%Z eqn:Eeq; cbn.
      * rewrite Z.eqb_refl. reflexivity.
      * rewrite Eeq. exact IH.
Qed.

Lemma map_find_insert_other {V : Type} (k k2 : Z) (v : V) (m : list (Z * V)) :
  k2 <> k -> map_find k2 (map_insert k v m) = map_find k2 m.
Proof.
  intros Hne. apply Z.eqb_neq in Hne.
  induction m as [|[k' v'] m IH]; cbn.
  - rewrite Hne. reflexivity.
  - destruct (k <? k')%Z eqn:Elt; cbn.
    + rewrite Hne. reflexivity.
    + destruct (k =? k')%Z eqn:Eeq; cbn.
      * apply Z.eqb_eq in Eeq. subst k'. rewrite Hne. reflexivity.
      * destruct (k2 =? k')%Z; [reflexivity|exact IH].
Qed.

(** The loop of lines 187-195 keeps what the cache holds and adds the
    genotypes of every ploidy it meets. *)
Lemma genotypesByPloidyLoop_spec (s : Site) (ga : list Allele) (todo : Samples) :
  forall m,
    (forall k gs, map_find k m = Some gs -> gs = allPossibleGenotypes k ga) ->
    let m' := genotypesByPloidyLoop s ga todo m in
    (forall k gs, map_find k m' = Some gs -> gs = allPossibleGenotypes k ga)
    /\ (forall k gs, map_find k m = Some gs -> map_find k m' = Some gs)
    /\ Forall (fun e => map_find (currentSamplePloidy s (fst e)) m'
                        = Some (allPossibleGenotypes (currentSamplePloidy s (fst e)) ga))
              todo
    /\ (forall k gs, map_find k m' = Some gs ->
          map_find k m = Some gs
          \/ exists e, In e todo /\ currentSamplePloidy s (fst e) = k).
Proof.
  induction todo as [|[sampleName sample] todo IH]; intros m Hm; cbn.
  - repeat split; auto.
  - destruct (map_find (currentSamplePloidy s sampleName) m) as [gs0|] eqn:Efind.
    + destruct (IH m Hm) as (Hok & Hkeep & Hall & Horigin). cbv zeta in *.
      repeat split; auto.
      * constructor; [|exact Hall]. cbn.
        rewrite (Hkeep _ _ Efind). f_equal. apply (Hm _ _ Efind).
      * intros k gs E. destruct (Horigin k gs E) as [E'|(e & Hin & Ee)];
          [left; exact E'|right; exists e; split; [right; exact Hin|exact Ee]].
    + set (pl := currentSamplePloidy s sampleName) in *.
      assert (Hm' : forall k gs,
                 map_find k (map_insert pl (allPossibleGenotypes pl ga) m) = Some gs ->
                 gs = allPossibleGenotypes k ga).
      { intros k gs E. destruct (Z.eq_dec k pl) as [->|Hne].
        - rewrite map_find_insert_same in E. injection E as <-. reflexivity.
        - rewrite (map_find_insert_other pl k _ m Hne) in E. apply (Hm _ _ E). }
      destruct (IH _ Hm') as (Hok & Hkeep & Hall & Horigin). cbv zeta in *.
      repeat split; auto.
      * intros k gs E. apply Hkeep.
        destruct (Z.eq_dec k pl) as [->|Hne]; [congruence|].
        rewrite (map_find_insert_other pl k _ m Hne). exact E.
      * constructor; [|exact Hall]. cbn. fold pl.
        apply Hkeep. apply map_find_insert_same.
      * intros k gs E. destruct (Horigin k gs E) as [E'|(e & Hin & Ee)].
        -- destruct (Z.eq_dec k pl) as [->|Hne].
           ++ right. exists (sampleName, sample). split; [left; reflexivity|reflexivity].
           ++ left. rewrite (map_find_insert_other pl k _ m Hne) in E'. exact E'.
        -- right. exists e. split; [right; exact Hin|exact Ee].
Qed.

(** X4.  After the loop of lines 187-195 the cache holds, for the ploidy of
    every sample of the site, the genotypes [allPossibleGenotypes] returns
    for that ploidy and the site's genotype alleles, and it holds nothing
    else: every key is the ploidy of a sample.  So the lookup of line 218
    always finds its key. *)
Theorem genotypesByPloidy_complete (s : Site) :
  let sd := siteData s in
  Forall (fun e => map_find (currentSamplePloidy s (fst e)) (genotypesByPloidy sd)
                   = Some (allPossibleGenotypes (currentSamplePloidy s (fst e))
                             (siteAlleles sd)))
         (samples s)
  /\ (forall k gs, map_find k (genotypesByPloidy sd) = Some gs ->
        gs = allPossibleGenotypes k (siteAlleles sd)
        /\ exists e, In e (samples s) /\ currentSamplePloidy s (fst e) = k).
Proof.
  cbv zeta. unfold siteData. cbn [genotypesByPloidy siteAlleles].
  set (ga := genotypeAlleles (groupAlleles (samples s)) (samples s) allGenotypeAlleles).
  destruct (genotypesByPloidyLoop_spec s ga (samples s) [])
    as (Hok & _ & Hall & Horigin).
  { intros k gs E. discriminate E. }
  cbv zeta in *. split; [exact Hall|].
  intros k gs E. split; [apply (Hok _ _ E)|].
  destruct (Horigin k gs E) as [E'|Hex]; [discriminate E'|exact Hex].
Qed.

(** ** The likelihood tables *)

Lemma results_find_set (k n : string) (v : @Result Genotype Sample)
    (m : @Results Genotype Sample) :
  results_find n (results_set k v m)
  = if (n =? k)%string then Some v else results_find n m.
Proof.
  induction m as [|[k' v'] m IH]; cbn.
  - reflexivity.
  - destruct (k =? k')%string eqn:Ekk; cbn.
    + apply String.eqb_eq in Ekk. subst k'.
      destruct (n =? k)%string; reflexivity.
    + destruct (n =? k')%string eqn:Enk'.
      * apply String.eqb_eq in Enk'. subst k'.
        rewrite String.eqb_sym in Ekk. rewrite Ekk. reflexivity.
      * exact IH.
Qed.

Lemma findSample_app (n : string) (a b : @Samples Sample) :
  findSample n (a ++ b)
  = match findSample n a with
    | Some e => Some e
    | None => findSample n b
    end.
Proof.
  unfold findSample. induction a as [|e a IH]; cbn; [reflexivity|].
  destruct (fst e =? n)%string; [reflexivity|exact IH].
Qed.

Lemma findSample_absent (n : string) (l : @Samples Sample) :
  ~ In n (map fst l) -> findSample n l = None.
Proof.
  unfold findSample. induction l as [|e l IH]; cbn; intros Hnot; [reflexivity|].
  destruct (fst e =? n)%string eqn:E.
  - apply String.eqb_eq in E. exfalso. apply Hnot. left. exact E.
  - apply IH. intros Hin. apply Hnot. right. exact Hin.
Qed.

Lemma findSample_unique (e : string * Sample) (l : Samples) :
  NoDup (map fst l) -> In e l -> findSample (fst e) l = Some e.
Proof.
  unfold findSample. induction l as [|e' l IH]; cbn; intros Hnodup Hin; [contradiction|].
  apply NoDup_cons_iff in Hnodup. destruct Hnodup as [Hfresh Hnodup].
  destruct Hin as [->|Hin].
  - rewrite String.eqb_refl. reflexivity.
  - destruct (fst e' =? fst e)%string eqn:E.
    + apply String.eqb_eq in E. exfalso. apply Hfresh. rewrite E.
      apply in_map. exact Hin.
    + apply IH; assumption.
Qed.

(** One pass of the loop for a sample whose name has no entry in [results]. *)
Lemma likelihoodStep_fresh (p : Parameters) (s : Site)
    (gbp : list (Z * list Genotype)) (st : Likelihoods) (e : string * Sample) :
  results_find (fst e) (results st) = None ->
  let st' := likelihoodStep p s gbp st e in
  sampleDataLikelihoods st'
  = sampleDataLikelihoods st
    ++ (if sampleHasData p s gbp e then [sampleRow p s gbp e] else [])
  /\ results st'
     = if sampleHasData p s gbp e
       then results_set (fst e) (sampleResult p s gbp e) (results st)
       else results st.
Proof.
  intros Efresh. cbv zeta.
  unfold likelihoodStep, sampleHasData, sampleResult, sampleRow, sampleGenotypes.
  cbv zeta. rewrite Efresh.
  destruct (filter (keepsGenotype p (snd e)) _) as [|g gs].
  - rewrite app_nil_r. split; reflexivity.
  - split; reflexivity.
Qed.

Lemma likelihoodLoop_tables (p : Parameters) (s : Site)
    (gbp : list (Z * list Genotype)) (todo : Samples) :
  forall (done : Samples) (st : Likelihoods),
    NoDup (map fst (done ++ todo)) ->
    sampleDataLikelihoods st
      = map (sampleRow p s gbp) (filter (sampleHasData p s gbp) done) ->
    (forall n, results_find n (results st) = expectedResult p s gbp done n) ->
    let st' := fold_left (likelihoodStep p s gbp) todo st in
    sampleDataLikelihoods st'
      = map (sampleRow p s gbp) (filter (sampleHasData p s gbp) (done ++ todo))
    /\ (forall n, results_find n (results st')
                  = expectedResult p s gbp (done ++ todo) n).
Proof.
  induction todo as [|e todo IH]; intros done st Hnodup Hrows Hres; cbn.
  - rewrite app_nil_r. split; assumption.
  - assert (Hfresh : ~ In (fst e) (map fst done)).
    { rewrite map_app in Hnodup. cbn in Hnodup.
      apply NoDup_remove_2 in Hnodup. intros Hin. apply Hnodup.
      apply in_or_app. left. exact Hin. }
    assert (Efresh : results_find (fst e) (results st) = None).
    { rewrite Hres. unfold expectedResult.
      rewrite (findSample_absent _ _ Hfresh). reflexivity. }
    destruct (likelihoodStep_fresh p s gbp st e Efresh) as [Erows Eres].
    cbv zeta in Erows, Eres.
    specialize (IH (done ++ [e]) (likelihoodStep p s gbp st e)).
    rewrite <- app_assoc in IH. cbn [app] in IH.
    apply IH; [exact Hnodup| |].
    + rewrite Erows, Hrows, filter_app, map_app. cbn [filter].
      destruct (sampleHasData p s gbp e); reflexivity.
    + intros n. rewrite Eres. unfold expectedResult.
      rewrite findSample_app. unfold findSample at 2. cbn [find].
      destruct (sampleHasData p s gbp e) eqn:Edata.
      * rewrite results_find_set.
        destruct (n =? fst e)%string eqn:En.
        -- apply String.eqb_eq in En. subst n.
           rewrite (findSample_absent _ _ Hfresh), String.eqb_refl, Edata.
           reflexivity.
        -- rewrite Hres. unfold expectedResult.
           rewrite String.eqb_sym, En.
           destruct (findSample n done); reflexivity.
      * rewrite Hres. unfold expectedResult.
        destruct (findSample n done) as [e'|]; [reflexivity|].
        destruct (fst e =? n)%string; [rewrite Edata|]; reflexivity.
Qed.

(** X5.  With one binding per sample name, the likelihood table has one row
    for every sample that keeps at least one genotype under the exclusion
    policy, in the order of the samples, and that row is the sample's sorted
    likelihoods; [results] holds exactly those rows under the samples'
    names; a sample left without genotypes (line 236) has no row and no
    entry, and a name that is no sample has no entry. *)
Theorem likelihood_tables (p : Parameters) (s : Site) :
  NoDup (map fst (samples s)) ->
  let gbp := genotypesByPloidy (siteData s) in
  let l := rep_likelihoods (siteReport p s) in
  sampleDataLikelihoods l
  = map (sampleRow p s gbp) (filter (sampleHasData p s gbp) (samples s))
  /\ (forall e, In e (samples s) ->
        results_find (fst e) (results l)
        = if sampleHasData p s gbp e then Some (sampleResult p s gbp e) else None)
  /\ (forall n, ~ In n (map fst (samples s)) -> results_find n (results l) = None).
Proof.
  intros Hnodup. cbv zeta. rewrite siteReport_likelihoods. unfold likelihoodLoop.
  destruct (likelihoodLoop_tables p s (genotypesByPloidy (siteData s)) (samples s)
              [] noLikelihoods Hnodup eq_refl (fun n => eq_refl))
    as [Hrows Hres].
  cbv zeta in Hrows, Hres. cbn [app] in Hrows, Hres.
  split; [exact Hrows|]. split.
  - intros e Hin. rewrite Hres. unfold expectedResult.
    rewrite (findSample_unique e _ Hnodup Hin). reflexivity.
  - intros n Hnot. rewrite Hres. unfold expectedResult.
    rewrite (findSample_absent _ _ Hnot). reflexivity.
Qed.

Lemma filter_split_length {A : Type} (f : A -> bool) (l : list A) :
  List.length l
  = (List.length (filter f l) + List.length (filter (fun x => negb (f x)) l))%nat.
Proof.
  induction l as [|x l IH]; cbn; [reflexivity|].
  destruct (f x); cbn; lia.
Qed.

(** X6.  Whatever the threshold, every row of the likelihood table is in
    exactly one of the variant and invariant tables, which keep the order of
    the table; with a zero threshold (the option not given) every row is in
    the variant table and the invariant table is empty, so the search may
    vary every sample. *)
Theorem variant_invariant_split (p : Parameters) (s : Site) :
  let l := rep_likelihoods (siteReport p s) in
  List.length (sampleDataLikelihoods l)
  = (List.length (variantSampleDataLikelihoods l)
     + List.length (invariantSampleDataLikelihoods l))%nat
  /\ (forall sd, In sd (sampleDataLikelihoods l) ->
        (In sd (variantSampleDataLikelihoods l) /\ flaggedVariant p sd = true)
        \/ (In sd (invariantSampleDataLikelihoods l) /\ flaggedVariant p sd = false))
  /\ (forall sd, In sd (variantSampleDataLikelihoods l) ->
        In sd (invariantSampleDataLikelihoods l) -> False)
  /\ (genotypeVariantThreshold p = 0 ->
      variantSampleDataLikelihoods l = sampleDataLikelihoods l
      /\ invariantSampleDataLikelihoods l = []).
Proof.
  cbv zeta. rewrite siteReport_likelihoods.
  pose proof (likelihoodLoop_partition p s (genotypesByPloidy (siteData s))) as L.
  cbv zeta in L. destruct L as [Hv Hi].
  set (l := likelihoodLoop p s (genotypesByPloidy (siteData s))) in *.
  split; [|split; [|split]].
  - rewrite Hv, Hi. apply filter_split_length.
  - intros sd Hin. rewrite Hv, Hi.
    destruct (flaggedVariant p sd) eqn:Ef.
    + left. split; [|reflexivity]. apply filter_In. split; assumption.
    + right. split; [|reflexivity]. apply filter_In. split; [assumption|].
      rewrite Ef. reflexivity.
  - intros sd Hinv Hini. rewrite Hv in Hinv. rewrite Hi in Hini.
    apply filter_In in Hinv. apply filter_In in Hini.
    destruct Hinv as [_ E1]. destruct Hini as [_ E2].
    rewrite E1 in E2. discriminate E2.
  - intros Ezero.
    assert (Eall : forall sd, flaggedVariant p sd = true).
    { intros sd. unfold flaggedVariant, Reqb.
      destruct (Req_dec_T _ _) as [_|Hne]; [reflexivity|contradiction]. }
    rewrite Hv, Hi. clear Hv Hi. split.
    + apply forallb_filter_id. apply forallb_forall. intros sd _. apply Eall.
    + induction (sampleDataLikelihoods l) as [|sd rows IH]; cbn; [reflexivity|].
      rewrite Eall. cbn. exact IH.
Qed.

(** ** The variant candidates among the samples *)



(** The marginal loop reads three settings only. *)
Lemma marginalLoop_ext (p1 p2 : Parameters) (s : Site) (ga : list Allele) :
  marginalPriors p1 = marginalPriors p2 ->
  genotypeComboStepMax p1 = genotypeComboStepMax p2 ->
  TH p1 = TH p2 ->
  forall n i best null sdl,
    marginalLoop p1 s ga n i best null sdl = marginalLoop p2 s ga n i best null sdl.
Proof.
  intros Epriors Estep Eth.
  induction n as [|n IH]; intros i best null sdl; [reflexivity|].
  cbn [marginalLoop]. unfold bind, calling. cbn [fst snd].
  rewrite Epriors, Estep, Eth.
  destruct (negb (fst (sortSampleDataLikelihoodsByMarginals _))); [reflexivity|].
  rewrite IH. reflexivity.
Qed.

(** Lines 447-590 read neither [minCoverage], nor [PVL], nor the two
    exclusion settings. *)
Lemma calledSite_withSettings (p : Parameters) (s : Site) (sd : SiteData)
    (l : Likelihoods) (front best : GenotypeCombo) (d : Decision)
    (m : Z) (v : R) (a b : bool) :
  calledSite (withSettings p m v a b (genotypingMaxIterations p)) s sd l front best d
  = calledSite p s sd l front best d.
Proof.
  unfold calledSite, marginals, bind, calling, ret. cbn [fst snd].
  change (calculateMarginals (withSettings p m v a b (genotypingMaxIterations p)))
    with (calculateMarginals p).
  destruct (calculateMarginals p); [|reflexivity].
  change (Z.to_nat (genotypingMaxIterations
                      (withSettings p m v a b (genotypingMaxIterations p))))
    with (Z.to_nat (genotypingMaxIterations p)).
  rewrite (marginalLoop_ext (withSettings p m v a b (genotypingMaxIterations p)) p
             s (siteAlleles sd) eq_refl eq_refl eq_refl).
  reflexivity.
Qed.

(** Two settings that agree on what lines 207-605 read give the same site. *)
Lemma siteReport_congr (p1 p2 : Parameters) (s : Site) :
  (forall g, likelihoodLoop p1 s g = likelihoodLoop p2 s g) ->
  (forall ga l, searchCombos p1 s ga l = searchCombos p2 s ga l) ->
  (forall l : Likelihoods, @searchCall Genotype Sample p1 l = searchCall p2 l) ->
  (forall d, passesPVL p1 d = passesPVL p2 d) ->
  failedFile p1 = failedFile p2 ->
  (forall sd l front best d,
      calledSite p1 s sd l front best d = calledSite p2 s sd l front best d) ->
  siteReport p1 s = siteReport p2 s.
Proof.
  intros El Es Ec Ev Ef Ecalled. unfold siteReport.
  rewrite El, Es, Ec, Ev, Ef.
  destruct (sortUnique _) as [|front rest]; [reflexivity|].
  destruct (bestGenotypeCombo _); [|reflexivity].
  rewrite Ecalled. reflexivity.
Qed.

(** X7.  The genotypes a sample is scored on are those of its ploidy, taken
    from the cache and filtered by the exclusion policy.  With
    [excludePartiallyObservedGenotypes] set, [excludeUnobservedGenotypes] has
    no effect on the site; with neither set, every genotype of the ploidy is
    kept. *)
Theorem exclusion_policy (p : Parameters) (s : Site) :
  let sd := siteData s in
  Forall (fun e =>
            sampleGenotypes p s (genotypesByPloidy sd) e
            = filter (fun g =>
                        if excludePartiallyObservedGenotypes p
                        then sampleHasSupportingObservationsForAllAlleles g (snd e)
                        else if excludeUnobservedGenotypes p
                        then sampleHasSupportingObservations g (snd e)
                        else true)
                (allPossibleGenotypes (currentSamplePloidy s (fst e)) (siteAlleles sd)))
         (samples s)
  /\ (forall unobserved,
        siteReport (withExclusion p true unobserved) s
        = siteReport (withExclusion p true false) s)
  /\ (excludePartiallyObservedGenotypes p = false ->
      excludeUnobservedGenotypes p = false ->
      Forall (fun e =>
                sampleGenotypes p s (genotypesByPloidy sd) e
                = allPossibleGenotypes (currentSamplePloidy s (fst e)) (siteAlleles sd))
             (samples s)).
Proof.
  cbv zeta.
  assert (Hcache :
    Forall (fun e =>
              sampleGenotypes p s (genotypesByPloidy (siteData s)) e
              = filter (keepsGenotype p (snd e))
                  (allPossibleGenotypes (currentSamplePloidy s (fst e))
                     (siteAlleles (siteData s))))
           (samples s)).
  { unfold siteData. cbn [genotypesByPloidy siteAlleles].
    set (ga := genotypeAlleles (groupAlleles (samples s)) (samples s) allGenotypeAlleles).
    destruct (genotypesByPloidyLoop_spec s ga (samples s) [])
      as (_ & _ & Hall & _).
    { intros k gs E. discriminate E. }
    cbv zeta in Hall.
    eapply Forall_impl; [|exact Hall].
    intros e Efind. unfold sampleGenotypes. rewrite Efind. reflexivity. }
  split; [|split].
  - exact Hcache.
  - intros unobserved. unfold withExclusion.
    apply siteReport_congr; try reflexivity.
    intros sd l front best d. rewrite !calledSite_withSettings. reflexivity.
  - intros Ep Eu. eapply Forall_impl; [|exact Hcache].
    intros e ->. apply forallb_filter_id. apply forallb_forall.
    intros g _. unfold keepsGenotype. rewrite Ep, Eu. reflexivity.
Qed.

(** ** Monotonicity of the two gates *)

Lemma siteReport_withMinCoverage (p : Parameters) (s : Site) (m : Z) :
  siteReport (withMinCoverage p m) s = siteReport p s.
Proof.
  unfold withMinCoverage.
  apply siteReport_congr; try reflexivity.
  intros sd l front best d. apply calledSite_withSettings.
Qed.

Lemma calledOutput_withPVL (p : Parameters) (s : Site) (v : R) :
  calledOutput (withPVL p v) s = calledOutput p s.
Proof.
  unfold calledOutput, withPVL.
  change (likelihoodLoop (withSettings _ _ _ _ _ _) s) with (likelihoodLoop p s).
  change (searchCombos (withSettings _ _ _ _ _ _) s) with (searchCombos p s).
  destruct (sortUnique _) as [|front rest]; [reflexivity|].
  destruct (bestGenotypeCombo _); [|reflexivity].
  rewrite calledSite_withSettings. reflexivity.
Qed.

(** X8.  Raising [minCoverage] only removes processed sites: a site processed
    under the higher value is processed under the lower one, with the same
    result. *)
Theorem minCoverage_monotone (p : Parameters) (s : Site) (m : Z) (r : SiteReport) :
  (minCoverage p <= m)%Z ->
  processSite (withMinCoverage p m) s = Processed r ->
  processSite p s = Processed r.
Proof.
  intros Hle. unfold processSite.
  rewrite siteReport_withMinCoverage.
  unfold skipCheck.
  change (minCoverage (withMinCoverage p m)) with m.
  change (minAltCount (withMinCoverage p m)) with (minAltCount p).
  change (minAltFraction (withMinCoverage p m)) with (minAltFraction p).
  destruct (nonATGC (currentReferenceBaseString s)); [discriminate|].
  destruct (negb (inTarget s)); [discriminate|].
  destruct (countAlleles (samples s) =? 0)%Z; [discriminate|].
  destruct (countAlleles (samples s) <? m)%Z eqn:Em; [discriminate|].
  apply Z.ltb_ge in Em.
  assert (Ep : (countAlleles (samples s) <? minCoverage p)%Z = false)
    by (apply Z.ltb_ge; lia).
  rewrite Ep. intros E. exact E.
Qed.

(** What a site writes, by the test of line 447. *)
Lemma siteReport_out_by_PVL (p : Parameters) (s : Site) :
  rep_out (siteReport p s)
  = if passesPVL p (rep_decision (siteReport p s))
    then calledOutput p s
    else Some [].
Proof.
  rewrite siteReport_decision, siteReport_combos.
  unfold siteReport, calledOutput.
  destruct (passesPVL _ _).
  - destruct (sortUnique _) as [|front rest]; [reflexivity|].
    destruct (bestGenotypeCombo _); reflexivity.
  - destruct (failedFile p =? "")%string; reflexivity.
Qed.

(** X9.  Raising [PVL] only removes records: the records a site writes under
    the higher threshold are written, unchanged, under the lower one. *)
Theorem PVL_monotone (p : Parameters) (s : Site) (v : R) (recs : list VcfArgs) :
  PVL p <= v ->
  recs <> [] ->
  rep_out (siteReport (withPVL p v) s) = Some recs ->
  rep_out (siteReport p s) = Some recs.
Proof.
  intros Hle Hne.
  rewrite (siteReport_out_by_PVL (withPVL p v) s), (siteReport_out_by_PVL p s).
  rewrite calledOutput_withPVL.
  rewrite !siteReport_decision, !siteReport_combos.
  unfold withPVL.
  change (likelihoodLoop (withSettings _ _ _ _ _ _) s) with (likelihoodLoop p s).
  change (searchCombos (withSettings _ _ _ _ _ _) s) with (searchCombos p s).
  set (combos := sortUnique _).
  destruct (passesPVL (withSettings _ _ _ _ _ _) _) eqn:Ehigh.
  - apply passesPVL_iff in Ehigh. cbn [PVL withSettings] in Ehigh.
    assert (Elow : passesPVL p (siteDecision combos) = true)
      by (apply passesPVL_iff; lra).
    rewrite Elow. intros E. exact E.
  - intros E. injection E as <-. contradiction.
Qed.

(** ** The whole run (lines 94-99, 182, 608) *)

Lemma runStep_counters (p : Parameters) (sites : list Site) :
  forall st,
    (0 <= total_sites st < 2 ^ 64)%Z ->
    (0 <= processed_sites st < 2 ^ 64)%Z ->
    total_sites (fold_left (runStep p) sites st)
    = ((total_sites st + Z.of_nat (List.length sites)) mod 2 ^ 64)%Z
    /\ processed_sites (fold_left (runStep p) sites st)
       = ((processed_sites st
           + Z.of_nat (List.length (filter (isProcessed p) sites))) mod 2 ^ 64)%Z.
Proof.
  induction sites as [|s sites IH]; intros st Ht Hp.
  - cbn [fold_left filter List.length Z.of_nat]. rewrite !Z.add_0_r.
    rewrite !Z.mod_small by assumption. split; reflexivity.
  - cbn [fold_left].
    assert (Ht' : (0 <= total_sites (runStep p st s) < 2 ^ 64)%Z)
      by (cbn [runStep total_sites]; apply Z.mod_pos_bound; lia).
    assert (Hp' : (0 <= processed_sites (runStep p st s) < 2 ^ 64)%Z).
    { cbn [runStep processed_sites].
      destruct (processSite p s); [exact Hp|apply Z.mod_pos_bound; lia]. }
    destruct (IH (runStep p st s) Ht' Hp') as [Etotal Eprocessed].
    rewrite Etotal, Eprocessed. cbn [runStep total_sites processed_sites].
    split.
    + rewrite Zplus_mod_idemp_l. f_equal. cbn [List.length]. lia.
    + cbn [filter]. unfold isProcessed at 2, processSite.
      destruct (skipCheck p s).
      * reflexivity.
      * rewrite Zplus_mod_idemp_l. f_equal. cbn [List.length]. lia.
Qed.

(** X10.  After a run, [total_sites] is the number of positions the parser
    yielded and [processed_sites] the number of those that no skip check
    rejected, both modulo [2^64]; as long as the number of positions fits an
    [unsigned long], [processed_sites] never exceeds [total_sites]. *)
Theorem run_counters (output : string) (parser : Reference) (p : Parameters)
    (sites : list Site) :
  let run := runSites output parser p sites in
  total_sites run = (Z.of_nat (List.length sites) mod 2 ^ 64)%Z
  /\ processed_sites run
     = (Z.of_nat (List.length (filter (isProcessed p) sites)) mod 2 ^ 64)%Z
  /\ ((Z.of_nat (List.length sites) < 2 ^ 64)%Z ->
      total_sites run = Z.of_nat (List.length sites)
      /\ processed_sites run = Z.of_nat (List.length (filter (isProcessed p) sites))
      /\ (processed_sites run <= total_sites run)%Z).
Proof.
  cbv zeta. unfold runSites.
  destruct (runStep_counters p sites (initialRun output parser p))
    as [Etotal Eprocessed]; [cbn; lia|cbn; lia|].
  cbn [initialRun total_sites processed_sites] in Etotal, Eprocessed.
  rewrite Z.add_0_l in Etotal, Eprocessed.
  split; [exact Etotal|]. split; [exact Eprocessed|].
  intros Hfits.
  pose proof (filter_length_le (isProcessed p) sites) as Hle.
  rewrite Etotal, Eprocessed.
  rewrite !Z.mod_small by lia.
  split; [reflexivity|]. split; [reflexivity|]. lia.
Qed.

Lemma runStep_out_none (p : Parameters) (sites : list Site) :
  forall st, run_out st = None -> run_out (fold_left (runStep p) sites st) = None.
Proof.
  induction sites as [|s sites IH]; intros st E; cbn [fold_left]; [exact E|].
  apply IH. cbn [runStep run_out]. rewrite E. reflexivity.
Qed.

Lemma runStep_out_some (p : Parameters) (sites : list Site) :
  forall st before,
    run_out st = Some before ->
    (forall s, In s sites -> recordsWritten (processSite p s) <> None) ->
    run_out (fold_left (runStep p) sites st)
    = Some (before
            ++ map written_record
                 (flat_map (fun s => match recordsWritten (processSite p s) with
                                     | Some recs => recs
                                     | None => []
                                     end) sites)).
Proof.
  induction sites as [|s sites IH]; intros st before E Hall; cbn [fold_left flat_map].
  - cbn [map]. rewrite app_nil_r. exact E.
  - rewrite map_app, app_assoc. apply IH.
    + cbn [runStep run_out]. rewrite E.
      destruct (recordsWritten (processSite p s)) as [recs|] eqn:Erecs;
        [reflexivity|].
      exfalso. apply (Hall s); [left; reflexivity|exact Erecs].
    + intros s' Hin. apply Hall. right. exact Hin.
Qed.

Lemma runStep_failed (p : Parameters) (sites : list Site) :
  forall st,
    run_failed (fold_left (runStep p) sites st)
    = run_failed st ++ flat_map (fun s => failedWritten (processSite p s)) sites.
Proof.
  induction sites as [|s sites IH]; intros st; cbn [fold_left flat_map].
  - rewrite app_nil_r. reflexivity.
  - rewrite IH. cbn [runStep run_failed]. rewrite app_assoc. reflexivity.
Qed.

(** X11.  The output stream of a run starts with the header when the output
    format is "vcf", and with nothing otherwise; then come the records of the
    positions, in the order the parser yielded them; the failed-site file
    holds the lines of the positions in the same order.  A skipped position
    adds nothing to either, no position adds to both, and once a position
    read the front of an empty container the output is undefined. *)
Theorem run_output (output : string) (parser : Reference) (p : Parameters)
    (sites : list Site) :
  let run := runSites output parser p sites in
  let header :=
    if (output =? "vcf")%string
    then [@written_header Genotype Sample AlleleGroups
            (reference_filename parser) (parser_sampleList parser) p
            (parser_sequencingTechnologies parser)]
    else [] in
  let records s := match recordsWritten (processSite p s) with
                   | Some recs => recs
                   | None => []
                   end in
  ((forall s, In s sites -> recordsWritten (processSite p s) <> None) ->
   run_out run = Some (header ++ map written_record (flat_map records sites)))
  /\ ((exists s, In s sites /\ recordsWritten (processSite p s) = None) ->
      run_out run = None)
  /\ run_failed run = flat_map (fun s => failedWritten (processSite p s)) sites
  /\ (forall s, isProcessed p s = false ->
        records s = [] /\ failedWritten (processSite p s) = [])
  /\ (forall s, failedWritten (processSite p s) <> [] -> records s = []).
Proof.
  cbv zeta. unfold runSites. split; [|split; [|split; [|split]]].
  - intros Hall.
    rewrite (runStep_out_some p sites (initialRun output parser p) _ eq_refl Hall).
    reflexivity.
  - generalize (@initialRun Genotype Sample AlleleGroups output parser p).
    induction sites as [|s sites IH]; intros st (bad & Hin & Ebad); [destruct Hin|].
    cbn [fold_left]. destruct Hin as [->|Hin].
    + apply runStep_out_none. cbn [runStep run_out]. rewrite Ebad.
      destruct (run_out st); reflexivity.
    + apply IH. exists bad. split; assumption.
  - rewrite runStep_failed. reflexivity.
  - intros s. unfold isProcessed, processSite.
    destruct (skipCheck p s); [|discriminate].
    intros _. split; reflexivity.
  - intros s. unfold processSite.
    destruct (skipCheck p s); cbn [failedWritten recordsWritten];
      [contradiction|].
    intros Hfailed.
    pose proof (siteReport_cases p s) as C. cbv zeta in C. destruct C as [_ C].
    destruct (rep_genotypeCombos (siteReport p s)) as [|front rest].
    + destruct C as (_ & C).
      destruct (passesPVL p _); destruct C as [Eout Efailed].
      * rewrite Efailed in Hfailed. contradiction.
      * rewrite Eout. reflexivity.
    + destruct C as (best & _ & C).
      destruct (passesPVL p _).
      * destruct C as [Efailed _]. rewrite Efailed in Hfailed. contradiction.
      * destruct C as (Eout & _). rewrite Eout. reflexivity.
Qed.

(** ** Sorting and deduplicating never invents a combo *)

Lemma In_sort_insert {A : Type} (comp : A -> A -> bool) (x : A) (l : list A) :
  forall z, z = x \/ In z l -> In z (sort_insert comp x l).
Proof.
  induction l as [|y l IH]; intros z; cbn [sort_insert].
  - intros [->|[]]. left. reflexivity.
  - destruct (comp y x).
    + intros [->|[->|Hin]].
      * right. apply IH. left. reflexivity.
      * left. reflexivity.
      * right. apply IH. right. exact Hin.
    + intros [->|Hin]; [left; reflexivity|right; exact Hin].
Qed.

Lemma list_sort_In {A : Type} (comp : A -> A -> bool) (l : list A) :
  forall z, In z (list_sort comp l) <-> In z l.
Proof.
  induction l as [|x l IH]; intros z; cbn; [tauto|].
  split.
  - intros Hin. destruct (sort_insert_In _ _ _ _ Hin) as [->|Hl].
    + left. reflexivity.
    + right. apply IH. exact Hl.
  - intros [<-|Hin]; apply In_sort_insert.
    + left. reflexivity.
    + right. apply IH. exact Hin.
Qed.

Lemma sort_insert_length {A : Type} (comp : A -> A -> bool) (x : A) (l : list A) :
  List.length (sort_insert comp x l) = S (List.length l).
Proof.
  induction l as [|y l IH]; cbn [sort_insert]; [reflexivity|].
  destruct (comp y x); cbn [List.length]; [rewrite IH|]; reflexivity.
Qed.

Lemma list_sort_length {A : Type} (comp : A -> A -> bool) (l : list A) :
  List.length (list_sort comp l) = List.length l.
Proof.
  induction l as [|x l IH]; cbn; [reflexivity|].
  rewrite sort_insert_length. f_equal. exact IH.
Qed.

Lemma unique_after_length {A : Type} (eq : A -> A -> bool) (l : list A) :
  forall kept, (List.length (unique_after eq kept l) <= List.length l)%nat.
Proof.
  induction l as [|y l IH]; intros kept; cbn [unique_after List.length]; [lia|].
  destruct (eq kept y); cbn [List.length].
  - specialize (IH kept). lia.
  - specialize (IH y). lia.
Qed.

Lemma sortUnique_In (combos : list GenotypeCombo) (c : GenotypeCombo) :
  In c (sortUnique combos) -> In c combos.
Proof.
  unfold sortUnique, list_unique. intros Hin.
  apply (list_sort_In gcrSorter combos).
  destruct (list_sort gcrSorter combos) as [|x l]; [exact Hin|].
  destruct Hin as [<-|Hin]; [left; reflexivity|].
  right. apply (unique_after_In _ _ _ _ Hin).
Qed.

Lemma sortUnique_head (combos : list GenotypeCombo) :
  hd_error (sortUnique combos) = hd_error (list_sort gcrSorter combos).
Proof.
  unfold sortUnique, list_unique.
  destruct (list_sort gcrSorter combos); reflexivity.
Qed.

(** X12.  The combo list of a site holds only combos the search returned, no
    more of them than the search returned, and it is empty exactly when the
    search returned none.  Then [pHom] is 0: with [PVL <= 1] the site passes
    line 447 and reads the combo that line 397 took the address of, in an
    empty list; with [PVL > 1] it writes no record, and its failed-site
    lines when a failed-site file is configured. *)
Theorem combos_from_search (p : Parameters) (s : Site) :
  let r := siteReport p s in
  let found := searchCombos p s (siteAlleles (rep_data r)) (rep_likelihoods r) in
  (forall c, In c (rep_genotypeCombos r) -> In c found)
  /\ (List.length (rep_genotypeCombos r) <= List.length found)%nat
  /\ (rep_genotypeCombos r = [] <-> found = [])
  /\ (found = [] ->
      pHom (rep_decision r) = 0
      /\ (PVL p <= 1 -> rep_out r = None)
      /\ (1 < PVL p ->
          rep_out r = Some []
          /\ rep_failed r
             = if (failedFile p =? "")%string then []
               else failedLines s (siteAlleles (siteData s)))).
Proof.
  cbv zeta.
  pose proof (siteReport_cases p s) as C. cbv zeta in C. destruct C as [Edata C].
  revert C. rewrite Edata, siteReport_decision, siteReport_likelihoods,
    siteReport_combos.
  set (found := searchCombos p s _ _). intros C.
  assert (Hempty : sortUnique found = [] <-> found = []).
  { split.
    - intros E. pose proof (sortUnique_head found) as Hhd. rewrite E in Hhd.
      pose proof (list_sort_length gcrSorter found) as Hlen.
      destruct (list_sort gcrSorter found); [|discriminate Hhd].
      destruct found; [reflexivity|discriminate Hlen].
    - intros ->. reflexivity. }
  split; [|split; [|split]].
  - intros c. apply sortUnique_In.
  - unfold sortUnique, list_unique.
    rewrite <- (list_sort_length gcrSorter found).
    destruct (list_sort gcrSorter found) as [|x l]; [lia|].
    cbn [List.length]. pose proof (unique_after_length GenotypeCombo_eq l x). lia.
  - exact Hempty.
  - intros E. apply Hempty in E. rewrite E in C. rewrite E.
    destruct C as (_ & C).
    assert (Epass : passesPVL p (siteDecision []) = true <-> PVL p <= 1).
    { rewrite passesPVL_iff. cbn [siteDecision decisionLoop initialDecision
        hasHetCombo negb pHom]. rewrite ld_sub_1_0. split; lra. }
    split; [reflexivity|]. split.
    + intros Hle. apply Epass in Hle. rewrite Hle in C. apply C.
    + intros Hgt. destruct (passesPVL p (siteDecision [])); [|exact C].
      assert (PVL p <= 1) by (apply Epass; reflexivity). lra.
Qed.

(** ** The records of one site *)

Lemma emitRecords_template (p : Parameters) (s : Site) (sd : SiteData)
    (d : Decision) (best comboForVcf : GenotypeCombo) (res : Results)
    (recs : list VcfArgs) (rec : VcfArgs) :
  emitRecords p s sd d best comboForVcf res = Some recs -> In rec recs ->
  exists alt,
    In alt (map fst (alternateAlleles best (String (currentReferenceBase s) "")))
    /\ rec = {| vcf_pHom := pHom d;
                vcf_samples := samples s;
                vcf_referenceBase := String (currentReferenceBase s) "";
                vcf_altbase := base alt;
                vcf_alt := alt;
                vcf_repeats := if showReferenceRepeats p then repeatCounts s 12 else [];
                vcf_sampleList := sampleList s;
                vcf_coverage := coverage sd;
                vcf_combo := comboForVcf;
                vcf_bestOverallComboIsHet := bestOverallComboIsHet d;
                vcf_alleleGroups := alleleGroups sd;
                vcf_genotypesByPloidy := genotypesByPloidy sd;
                vcf_sequencingTechnologies := sequencingTechnologies s;
                vcf_results := res |}.
Proof.
  unfold emitRecords. cbv zeta.
  destruct (reportAllAlternates p).
  - intros E Hin. injection E as <-. apply in_map_iff in Hin.
    destruct Hin as (a & <- & Ha). exists (fst a).
    split; [apply in_map; exact Ha|reflexivity].
  - destruct (alternateAlleles best _) as [|a alts]; [discriminate|].
    intros E Hin. injection E as <-. destruct Hin as [<-|[]].
    exists (fst a). split; [left; reflexivity|reflexivity].
Qed.

(** X13.  The records a site writes differ in the alternate allele only: each
    carries the site's samples, reference base, coverage, allele groups and
    genotype table and the base of its own alternate, which is one of the
    alternates of [bestCombo]; two records for the same alternate are
    equal. *)
Theorem records_differ_in_alternate (p : Parameters) (s : Site)
    (recs : list VcfArgs) :
  rep_out (siteReport p s) = Some recs ->
  (forall rec, In rec recs ->
     vcf_samples rec = samples s
     /\ vcf_referenceBase rec = String (currentReferenceBase s) ""
     /\ vcf_sampleList rec = sampleList s
     /\ vcf_sequencingTechnologies rec = sequencingTechnologies s
     /\ vcf_coverage rec = countAlleles (samples s)
     /\ vcf_alleleGroups rec = groupAlleles (samples s)
     /\ vcf_genotypesByPloidy rec = genotypesByPloidy (siteData s)
     /\ vcf_altbase rec = base (vcf_alt rec)
     /\ exists alts,
          siteAlternates s (rep_genotypeCombos (siteReport p s)) = Some alts
          /\ In (vcf_alt rec) (map fst alts))
  /\ (forall rec1 rec2, In rec1 recs -> In rec2 recs ->
        vcf_alt rec1 = vcf_alt rec2 -> rec1 = rec2).
Proof.
  intros Eout.
  pose proof (siteReport_cases p s) as C. cbv zeta in C. destruct C as [Edata C].
  unfold siteAlternates.
  destruct (rep_genotypeCombos (siteReport p s)) as [|front rest].
  { destruct C as (_ & C).
    destruct (passesPVL p _); destruct C as [E _]; rewrite E in Eout.
    - discriminate Eout.
    - injection Eout as <-. split; [intros rec []|intros rec1 rec2 []]. }
  destruct C as (best & Ebest & C). rewrite Ebest.
  destruct (passesPVL p _).
  - destruct C as [_ C].
    assert (Hemit : exists combo res,
               emitRecords p s (rep_data (siteReport p s))
                 (rep_decision (siteReport p s)) best combo res = Some recs).
    { destruct (calculateMarginals p); destruct C as [E _];
        rewrite E in Eout; eexists; eexists; exact Eout. }
    destruct Hemit as (combo & res & Hemit). rewrite Edata in Hemit.
    split.
    + intros rec Hin.
      destruct (emitRecords_template _ _ _ _ _ _ _ _ _ Hemit Hin) as (alt & Halt & ->).
      cbn. repeat split.
      eexists. split; [reflexivity|exact Halt].
    + intros rec1 rec2 Hin1 Hin2.
      destruct (emitRecords_template _ _ _ _ _ _ _ _ _ Hemit Hin1) as (a1 & _ & ->).
      destruct (emitRecords_template _ _ _ _ _ _ _ _ _ Hemit Hin2) as (a2 & _ & ->).
      cbn. intros ->. reflexivity.
  - destruct C as (E & _). rewrite E in Eout. injection Eout as <-.
    split; [intros rec []|intros rec1 rec2 []].
Qed.

(** ** The refinement with no iteration allowed *)

(** X14.  With marginals enabled and an iteration cap of zero or less, the
    loop of line 475 is not entered: no refinement step is called, and the
    final combo and the results of every written record are computed from the
    likelihoods as lines 207-271 left them. *)
Theorem zero_iteration_cap (p : Parameters) (s : Site) :
  (genotypingMaxIterations p <= 0)%Z ->
  calculateMarginals p = true ->
  let r := siteReport p s in
  let sdl := sampleDataLikelihoods (rep_likelihoods r) in
  iterationsStarted (rep_calls r) = 0%nat
  /\ resortOutcomes (rep_calls r) = []
  /\ forall recs rec, rep_out r = Some recs -> In rec recs ->
       vcf_combo rec = dataLikelihoodMaxGenotypeCombo sdl (TH p) (configuredPriors p)
       /\ vcf_results rec = results_update (results (rep_likelihoods r)) sdl.
Proof.
  intros Hcap Emarg. cbv zeta.
  assert (Ezero : Z.to_nat (genotypingMaxIterations p) = 0%nat) by lia.
  pose proof (siteReport_cases p s) as C. cbv zeta in C. destruct C as [Edata C].
  destruct (rep_genotypeCombos (siteReport p s)) as [|front rest].
  - destruct C as (Ecalls & C). rewrite Ecalls.
    split; [reflexivity|]. split; [reflexivity|]. intros recs rec E Hin.
    destruct (passesPVL p _); destruct C as [Eout _]; rewrite Eout in E.
    + discriminate E.
    + injection E as <-. destruct Hin.
  - destruct C as (best & _ & C).
    destruct (passesPVL p _).
    + destruct C as [_ C]. rewrite Emarg in C. destruct C as [Eout Ecalls].
      unfold marginalLoopCalls in Ecalls. unfold marginalSorted in Eout.
      rewrite Ezero in Ecalls, Eout. cbn [marginalLoop ret fst snd app] in Ecalls, Eout.
      rewrite Ecalls.
      split; [reflexivity|]. split; [reflexivity|].
      intros recs rec E Hin. rewrite Eout in E.
      destruct (emitRecords_fields _ _ _ _ _ _ _ _ _ E Hin) as (Ecombo & Eres & _).
      split; assumption.
    + destruct C as (Eout & Ecalls & _). rewrite Ecalls, Eout.
      split; [reflexivity|]. split; [reflexivity|].
      intros recs rec E. injection E as <-. intros [].
Qed.

(** ** The allele types the parser is asked for (lines 77-87) *)

(** X15.  A bit is set in [allowedAlleleTypes] exactly when it is set in the
    reference flag or in the flag of an allele type that is switched on; in
    particular the reference flag is always included, and with every type
    switched off nothing else is. *)
Theorem allowedAlleleTypes_bits (f : AlleleFlags)
    (allowSNPs allowIndels allowMNPs : bool) :
  (forall n,
     Z.testbit (allowedAlleleTypes f allowSNPs allowIndels allowMNPs) n
     = Z.testbit (flag_REFERENCE f) n
       || allowSNPs && Z.testbit (flag_SNP f) n
       || allowIndels && (Z.testbit (flag_INSERTION f) n
                          || Z.testbit (flag_DELETION f) n)
       || allowMNPs && Z.testbit (flag_MNP f) n)
  /\ Z.land (allowedAlleleTypes f allowSNPs allowIndels allowMNPs) (flag_REFERENCE f)
     = flag_REFERENCE f
  /\ allowedAlleleTypes f false false false = flag_REFERENCE f.
Proof.
  assert (Hbits : forall n,
     Z.testbit (allowedAlleleTypes f allowSNPs allowIndels allowMNPs) n
     = Z.testbit (flag_REFERENCE f) n
       || allowSNPs && Z.testbit (flag_SNP f) n
       || allowIndels && (Z.testbit (flag_INSERTION f) n
                          || Z.testbit (flag_DELETION f) n)
       || allowMNPs && Z.testbit (flag_MNP f) n).
  { intros n. unfold allowedAlleleTypes. cbv zeta.
    destruct allowSNPs, allowIndels, allowMNPs; rewrite ?Z.lor_spec;
      cbn [andb]; rewrite ?orb_false_r, ?orb_assoc; reflexivity. }
  split; [exact Hbits|]. split; [|reflexivity].
  apply Z.bits_inj'. intros n _. rewrite Z.land_spec, Hbits.
  destruct (Z.testbit (flag_REFERENCE f) n); [reflexivity|].
  apply andb_false_r.
Qed.

(** ** The front of the combo list *)

Section FrontByPosterior.

(** The comparator as the design describes it: descending [posteriorProb]. *)
Hypothesis gcrSorter_posterior :
  forall a b, gcrSorter a b = Rltb (posteriorProb b) (posteriorProb a).

(** X16.  With that comparator, the first combo of a site's list has the
    highest [posteriorProb] among all the combos the search returned. *)
Theorem front_has_highest_posterior (p : Parameters) (s : Site)
    (front : GenotypeCombo) (rest : list GenotypeCombo) :
  rep_genotypeCombos (siteReport p s) = front :: rest ->
  forall c,
    In c (searchCombos p s (siteAlleles (siteData s))
            (likelihoodLoop p s (genotypesByPloidy (siteData s)))) ->
    posteriorProb c <= posteriorProb front.
Proof.
  rewrite siteReport_combos.
  set (found := searchCombos p s _ _). intros Ecombos c Hin.
  pose proof (sortUnique_head found) as Hhd. rewrite Ecombos in Hhd.
  pose proof (list_sort_descending gcrSorter_posterior found) as Hsorted.
  apply (list_sort_In gcrSorter found) in Hin.
  destruct (list_sort gcrSorter found) as [|x l]; [destruct Hin|].
  cbn [hd_error] in Hhd. injection Hhd as ->.
  unfold descending in Hsorted.
  apply StronglySorted_inv in Hsorted. destruct Hsorted as [_ Hx].
  destruct Hin as [<-|Hin]; [lra|].
  rewrite Forall_forall in Hx. specialize (Hx c Hin). lra.
Qed.

End FrontByPosterior.

(** ** The two accumulators of the site decision *)

Lemma filter_none {A : Type} (f : A -> bool) (l : list A) :
  Forall (fun x => f x = false) l -> filter f l = [].
Proof.
  induction l as [|x l IH]; intros Hall; [reflexivity|].
  apply Forall_cons_iff in Hall. destruct Hall as [Ex Hl].
  cbn [filter]. rewrite Ex. apply IH. exact Hl.
Qed.

(** X17.  [pHom] is the running sum, from 0, and [pVar] the running
    difference, from 1, of the same terms
    [safe_exp(posteriorProb - posteriorNormalizer)], one per homozygous combo
    in list order, each partial result rounded to [long double];
    heterozygous combos contribute to neither.  A site without a homozygous
    combo has [pHom = 0] and [pVar = 1], and passes line 447 exactly when
    [PVL <= 1]. *)
Theorem posterior_accumulators (p : Parameters) (s : Site) :
  let r := siteReport p s in
  let combos := rep_genotypeCombos r in
  let d := rep_decision r in
  let term (gc : GenotypeCombo) :=
    safe_exp (ld_sub (posteriorProb gc)
                (logsumexp_probs (map posteriorProb combos))) in
  pHom d = fold_left (fun acc gc => ld_add acc (term gc))
             (filter isHomozygous combos) 0
  /\ pVar d = fold_left (fun acc gc => ld_sub acc (term gc))
                (filter isHomozygous combos) 1
  /\ (Forall (fun gc => isHomozygous gc = false) combos ->
      pHom d = 0 /\ pVar d = 1 /\ (passesPVL p d = true <-> PVL p <= 1)).
Proof.
  cbv zeta. rewrite siteReport_decision.
  destruct (siteDecision_accumulators (rep_genotypeCombos (siteReport p s)))
    as [Ehom Evar].
  unfold posteriorNormalizer in Ehom, Evar.
  split; [exact Ehom|]. split; [exact Evar|].
  intros Hhet.
  pose proof (filter_none isHomozygous _ Hhet) as Enone.
  rewrite passesPVL_iff, Ehom, Evar, Enone. cbn [fold_left].
  rewrite ld_sub_1_0.
  split; [reflexivity|]. split; [reflexivity|]. split; lra.
Qed.

(** ** What [unique()] drops *)

Lemma unique_after_represented {A : Type} (eq : A -> A -> bool) (l : list A) :
  forall kept x, In x l ->
    eq kept x = true
    \/ exists y, In y (unique_after eq kept l) /\ (y = x \/ eq y x = true).
Proof.
  induction l as [|z l IH]; intros kept x Hin; [destruct Hin|].
  cbn [unique_after]. destruct (eq kept z) eqn:Ez.
  - destruct Hin as [<-|Hin]; [left; exact Ez|].
    apply IH. exact Hin.
  - right. destruct Hin as [<-|Hin].
    + exists z. split; [left; reflexivity|left; reflexivity].
    + destruct (IH z x Hin) as [Ex|(y & Hy & Hrep)].
      * exists z. split; [left; reflexivity|right; exact Ex].
      * exists y. split; [right; exact Hy|exact Hrep].
Qed.

(** X18.  Every combo the search returned is in the site's list or has a
    combo in the list that [operator==] reports equal to it: [unique()]
    drops a combo only next to a kept one that equals it. *)
Theorem dropped_combo_has_equal_kept (p : Parameters) (s : Site) :
  let r := siteReport p s in
  forall c,
    In c (searchCombos p s (siteAlleles (rep_data r)) (rep_likelihoods r)) ->
    exists kept,
      In kept (rep_genotypeCombos r)
      /\ (kept = c \/ GenotypeCombo_eq kept c = true).
Proof.
  cbv zeta.
  pose proof (siteReport_cases p s) as C. cbv zeta in C. destruct C as [Edata _].
  rewrite Edata, siteReport_likelihoods, siteReport_combos.
  set (found := searchCombos p s _ _). intros c Hin.
  apply (list_sort_In gcrSorter found) in Hin.
  unfold sortUnique, list_unique.
  destruct (list_sort gcrSorter found) as [|x l]; [destruct Hin|].
  destruct Hin as [<-|Hin].
  - exists x. split; [left; reflexivity|left; reflexivity].
  - destruct (unique_after_represented GenotypeCombo_eq l x c Hin)
      as [Ex|(y & Hy & Hrep)].
    + exists x. split; [left; reflexivity|right; exact Ex].
    + exists y. split; [right; exact Hy|exact Hrep].
Qed.

(** ** The failed-site file (lines 591-603) *)

(** X19.  A processed site writes to the failed-site file exactly when the
    test of line 447 fails and a failed-site file is configured, whatever its
    combo list holds; it then writes one line for every genotype allele that
    is not of reference type, in the order of the genotype alleles, each with
    the sequence name, the position as an [unsigned long] and that position
    plus the allele's length, and it writes no record. *)
Theorem failed_site_lines (p : Parameters) (s : Site) :
  let r := siteReport p s in
  rep_failed r
  = (if negb (passesPVL p (rep_decision r)) && negb (failedFile p =? "")%string
     then failedLines s (siteAlleles (siteData s))
     else [])
  /\ map failed_allele (failedLines s (siteAlleles (siteData s)))
     = filter (fun ga => negb (AlleleType_eqb (type ga) ALLELE_REFERENCE))
         (siteAlleles (siteData s))
  /\ (forall line, In line (rep_failed r) ->
        failed_sequence line = currentSequenceName s
        /\ failed_start line = (currentPosition s mod 2 ^ 64)%Z
        /\ failed_end line
           = ((failed_start line + length (failed_allele line)) mod 2 ^ 64)%Z
        /\ type (failed_allele line) <> ALLELE_REFERENCE
        /\ In (failed_allele line) (siteAlleles (siteData s)))
  /\ (rep_failed r <> [] -> rep_out r = Some []).
Proof.
  cbv zeta.
  assert (Hlines : forall line,
            In line (failedLines s (siteAlleles (siteData s))) ->
            failed_sequence line = currentSequenceName s
            /\ failed_start line = (currentPosition s mod 2 ^ 64)%Z
            /\ failed_end line
               = ((failed_start line + length (failed_allele line)) mod 2 ^ 64)%Z
            /\ type (failed_allele line) <> ALLELE_REFERENCE
            /\ In (failed_allele line) (siteAlleles (siteData s))).
  { intros line Hin. unfold failedLines in Hin. cbv zeta in Hin.
    apply in_map_iff in Hin. destruct Hin as (ga & <- & Hga).
    apply filter_In in Hga. destruct Hga as [Hga Etype].
    cbn. repeat split; try exact Hga.
    intros E. rewrite E in Etype. discriminate Etype. }
  pose proof (siteReport_cases p s) as C. cbv zeta in C. destruct C as [Edata C].
  rewrite Edata in C.
  assert (Efailed :
    rep_failed (siteReport p s)
    = (if negb (passesPVL p (rep_decision (siteReport p s)))
          && negb (failedFile p =? "")%string
       then failedLines s (siteAlleles (siteData s))
       else [])
    /\ (rep_failed (siteReport p s) <> [] -> rep_out (siteReport p s) = Some [])).
  { destruct (rep_genotypeCombos (siteReport p s)) as [|front rest].
    - destruct C as (_ & C).
      destruct (passesPVL p _); destruct C as [Eout E]; rewrite E.
      + split; [reflexivity|]. intros Hne. contradiction.
      + split; [|intros _; exact Eout].
        destruct (failedFile p =? "")%string; reflexivity.
    - destruct C as (best & _ & C).
      destruct (passesPVL p _).
      + destruct C as [E _]. rewrite E.
        split; [reflexivity|]. intros Hne. contradiction.
      + destruct C as (Eout & _ & E). rewrite E.
        split; [|intros _; exact Eout].
        destruct (failedFile p =? "")%string; reflexivity. }
  destruct Efailed as [Efailed Hout].
  split; [exact Efailed|]. split; [|split].
  - unfold failedLines. cbv zeta. rewrite map_map. cbn. apply map_id.
  - intros line Hin. rewrite Efailed in Hin.
    destruct (_ && _); [apply Hlines; exact Hin|destruct Hin].
  - exact Hout.
Qed.

End FurtherProperties.

(** * The embedding at concrete sites *)

Lemma Rltb_irrefl (x : R) : Rltb x x = false.
Proof.
  unfold Rltb. destruct (Rlt_dec x x) as [Hlt|_]; [lra|reflexivity].
Qed.

Lemma Rltb_true (x y : R) : x < y -> Rltb x y = true.
Proof.
  intros Hlt. unfold Rltb. destruct (Rlt_dec x y) as [_|Hge]; [reflexivity|contradiction].
Qed.

Lemma Rleb_true (x y : R) : x <= y -> Rleb x y = true.
Proof.
  intros Hle. unfold Rleb. destruct (Rle_dec x y) as [_|Hgt]; [reflexivity|contradiction].
Qed.

(** The [logsumexp] of a single value is that value, so for a lone
    homozygous combo the loop adds [safe_exp(0) = 1] to [pHom = 0], which is
    exact. *)
Lemma homOnly_pHom :
  pHom (@siteDecision nat unit unit homOnlyHelpers [homRef]) = 1.
Proof.
  destruct (@siteDecision_accumulators nat unit unit homOnlyHelpers [homRef])
    as [E _].
  rewrite E. unfold posteriorNormalizer.
  cbn [filter isHomozygous homOnlyHelpers demoHelpers fold_left map
       posteriorProb homRef demoCombo logsumexp_probs safe_exp fold_right].
  rewrite exp_0, Rplus_0_r, ln_1, ld_sub_diag, exp_0. apply ld_add_0_1.
Qed.

Lemma homOnly_combos (p : Parameters) :
  rep_genotypeCombos (@siteReport nat unit unit homOnlyHelpers p demoSite)
  = [homRef].
Proof.
  rewrite siteReport_combos. unfold searchCombos.
  destruct (expectationMaximization p); reflexivity.
Qed.

(** C2, as stated, fails: a processed site whose only combo is homozygous
    reference has [pHom = 1], so with [PVL = 0] it passes the test of line
    447; its [bestCombo] has no alternate allele, so with
    [reportAllAlternates] the loop of lines 552-570 writes no record. *)
Lemma passing_site_without_record :
  ~ @writtenExactlyWhenPassing nat unit unit homOnlyHelpers
      (demoParameters 0 1 0 true) demoSite.
Proof.
  unfold writtenExactlyWhenPassing. intros Hclaim.
  assert (Eprocessed : @processSite nat unit unit homOnlyHelpers
                         (demoParameters 0 1 0 true) demoSite
                       = Processed (@siteReport nat unit unit homOnlyHelpers
                                      (demoParameters 0 1 0 true) demoSite)).
  { unfold processSite, skipCheck. cbn.
    rewrite Rleb_true by lra. reflexivity. }
  destruct (Hclaim _ Eprocessed) as [_ Hwritten].
  pose proof (@siteReport_cases nat unit unit homOnlyHelpers
                (demoParameters 0 1 0 true) demoSite) as C.
  cbv zeta in C. destruct C as [_ C].
  assert (Epass : ld_sub 1 (pHom (rep_decision
                                    (@siteReport nat unit unit homOnlyHelpers
                                       (demoParameters 0 1 0 true) demoSite)))
                  >= PVL (demoParameters 0 1 0 true)).
  { rewrite siteReport_decision, homOnly_combos, homOnly_pHom, ld_sub_diag.
    cbn. lra. }
  destruct (Hwritten Epass) as (recs & Eout & Hne).
  rewrite homOnly_combos in C. destruct C as (best & _ & C).
  apply passesPVL_iff in Epass. rewrite Epass in C.
  destruct C as (_ & Eout' & _). rewrite Eout' in Eout.
  cbn in Eout. injection Eout as <-. apply Hne. reflexivity.
Qed.

(** The sort moves the heterozygous combo, whose posterior is lower, behind
    the two homozygous ones, and [unique()] drops the second of these. *)
Lemma ranked_sortUnique :
  @sortUnique nat unit unit rankedHelpers rankedCombos = [homRef; hetLower].
Proof.
  unfold sortUnique, rankedCombos, list_sort. cbn.
  rewrite Rltb_irrefl. cbn.
  rewrite (Rltb_true (-1) 0) by lra. cbn. reflexivity.
Qed.

Lemma ranked_combos (p : Parameters) :
  rep_genotypeCombos (@siteReport nat unit unit rankedHelpers p demoSite)
  = [homRef; hetLower].
Proof.
  rewrite siteReport_combos. unfold searchCombos.
  destruct (expectationMaximization p); apply ranked_sortUnique.
Qed.

(** ** A called site, run *)

Lemma het_combos (p : Parameters) :
  rep_genotypeCombos (@siteReport nat unit unit hetHelpers p demoSite)
  = [hetCombo].
Proof.
  rewrite siteReport_combos. unfold searchCombos.
  destruct (expectationMaximization p); reflexivity.
Qed.

Lemma het_passes (p : Parameters) :
  PVL p = 0 ->
  passesPVL p (rep_decision (@siteReport nat unit unit hetHelpers p demoSite))
  = true.
Proof.
  intros Epvl. apply passesPVL_iff.
  rewrite siteReport_decision, het_combos, Epvl.
  destruct (@siteDecision_accumulators nat unit unit hetHelpers [hetCombo])
    as [E _].
  rewrite E. cbn [filter isHomozygous hetHelpers demoHelpers fold_left].
  rewrite ld_sub_1_0. lra.
Qed.

(** The heterozygous site with marginals: the re-sort reports a change every
    time, so the loop runs its three iterations and stops at the cap; one
    record is written, and its combo follows the configured [pooled] although
    every refinement call was made with [pooled = true]. *)
Example het_site_run (pooled' : bool) :
  let p := withPooledHwe (demoParameters 0 1 0 true) pooled' false in
  let r := @siteReport nat unit unit hetHelpers p demoSite in
  iterationsStarted (rep_calls r) = 3%nat
  /\ resortOutcomes (rep_calls r) = [true; true; true]
  /\ (exists rec, rep_out r = Some [rec]
                  /\ vcf_combo rec
                     = demoCombo [if pooled' then 1%nat else 0%nat] 0
                  /\ vcf_altbase rec = "T"
                  /\ vcf_bestOverallComboIsHet rec = true)
  /\ rep_calls r
     = [ searchCall p (rep_likelihoods r);
         call_orderedGenotypeCombo (marginalPriors p);
         call_allLocalGenotypeCombinations 0 (marginalPriors p);
         call_marginalGenotypeLikelihoods 0;
         call_sortSampleDataLikelihoodsByMarginals 0 true;
         call_allLocalGenotypeCombinations 1 (marginalPriors p);
         call_marginalGenotypeLikelihoods 1;
         call_sortSampleDataLikelihoodsByMarginals 1 true;
         call_allLocalGenotypeCombinations 2 (marginalPriors p);
         call_marginalGenotypeLikelihoods 2;
         call_sortSampleDataLikelihoodsByMarginals 2 true;
         call_dataLikelihoodMaxGenotypeCombo (configuredPriors p) ].
Proof.
  cbv zeta.
  set (p := withPooledHwe (demoParameters 0 1 0 true) pooled' false).
  pose proof (@siteReport_cases nat unit unit hetHelpers p demoSite) as C.
  cbv zeta in C. destruct C as [_ C].
  rewrite het_combos, het_passes in C by reflexivity.
  destruct C as (best & Ebest & _ & Eout & Ecalls).
  change (calculateMarginals p) with true in Eout, Ecalls.
  rewrite Ecalls, Eout.
  assert (Eloop : @marginalLoopCalls nat unit unit hetHelpers p demoSite
                    (siteAlleles (rep_data (@siteReport nat unit unit hetHelpers p demoSite)))
                    hetCombo
                    (rep_likelihoods (@siteReport nat unit unit hetHelpers p demoSite))
                  = [ call_allLocalGenotypeCombinations 0 (marginalPriors p);
                      call_marginalGenotypeLikelihoods 0;
                      call_sortSampleDataLikelihoodsByMarginals 0 true;
                      call_allLocalGenotypeCombinations 1 (marginalPriors p);
                      call_marginalGenotypeLikelihoods 1;
                      call_sortSampleDataLikelihoodsByMarginals 1 true;
                      call_allLocalGenotypeCombinations 2 (marginalPriors p);
                      call_marginalGenotypeLikelihoods 2;
                      call_sortSampleDataLikelihoodsByMarginals 2 true ])
    by reflexivity.
  rewrite Eloop.
  split; [reflexivity|]. split; [reflexivity|]. split; [|reflexivity].
  rewrite siteReport_decision, het_combos.
  eexists. split; [reflexivity|]. cbn [vcf_combo vcf_altbase vcf_bestOverallComboIsHet].
  split; [reflexivity|]. split; [reflexivity|].
  rewrite siteDecision_bestOverallComboIsHet. reflexivity.
Qed.

(** ** The theorems with a premise, applied *)

(** C3 at the site of [rankedCombos]: the list starts with a homozygous
    combo, and [bestCombo] is the heterozygous combo at position 1. *)
Lemma bestCombo_first_het_or_front_witness :
  let r := @siteReport nat unit unit rankedHelpers (demoParameters 0 1 0 true)
             demoSite in
  rep_genotypeCombos r = homRef :: [hetLower]
  /\ @bestGenotypeCombo nat unit unit rankedHelpers (rep_genotypeCombos r)
     = Some hetLower
  /\ bestCombo (rep_decision r) = Some 1%nat.
Proof.
  cbv zeta. split; [apply ranked_combos|].
  destruct (@bestCombo_first_het_or_front nat unit unit rankedHelpers
              (demoParameters 0 1 0 true) demoSite homRef [hetLower]
              (ranked_combos (demoParameters 0 1 0 true)))
    as (Ebest & Eindex & _).
  rewrite Ebest, Eindex, ranked_combos. split; reflexivity.
Defined.



(** X1 with the comparator of [rankedHelpers], which orders by
    [posteriorProb]. *)
Lemma sortUnique_descending_witness :
  descending (@sortUnique nat unit unit rankedHelpers rankedCombos)
  /\ adjacentDistinct (@GenotypeCombo_eq nat unit unit rankedHelpers)
       (@sortUnique nat unit unit rankedHelpers rankedCombos).
Proof.
  exact (@sortUnique_descending nat unit unit rankedHelpers
           (fun a b => eq_refl) rankedCombos).
Defined.

(** X2 on numbers sorted in descending order, where ties are equalities. *)
Lemma sort_unique_pairwiseDistinct_witness :
  pairwiseDistinct Nat.eqb
    (list_unique Nat.eqb (list_sort (fun a b => Nat.ltb b a) [1; 2; 1]%nat)).
Proof.
  apply (sort_unique_pairwiseDistinct (fun a b => Nat.ltb b a) Nat.eqb).
  - intros a b E. apply Nat.ltb_lt in E. apply Nat.ltb_ge. lia.
  - intros a b c E. apply Nat.ltb_lt in E.
    destruct (Nat.ltb b a) eqn:Eba; [left; reflexivity|right].
    apply Nat.ltb_ge in Eba. apply Nat.ltb_lt. lia.
  - intros a b E1 E2. apply Nat.ltb_ge in E1, E2. apply Nat.eqb_eq. lia.
  - intros a b E. apply Nat.eqb_eq in E. apply Nat.ltb_ge. lia.
Defined.

(** X3 at the heterozygous site, which has twenty observations. *)
Lemma skipped_iff_listed_witness :
  @skippedExactlyWhenListed nat unit unit hetHelpers (demoParameters 0 1 0 true)
    demoSite.
Proof.
  apply (@skipped_iff_listed nat unit unit hetHelpers (demoParameters 0 1 0 true)
           demoSite).
  cbn. intros E. discriminate E.
Defined.

(** ** The further properties with a premise, applied *)

Lemma het_processed (p : Parameters) :
  (minCoverage p <= 20)%Z -> (minAltCount p <= 10)%Z -> minAltFraction p = 0 ->
  @processSite nat unit unit hetHelpers p demoSite
  = Processed (@siteReport nat unit unit hetHelpers p demoSite).
Proof.
  intros Hcov Halt Hfrac. unfold processSite, skipCheck.
  cbn [nonATGC currentReferenceBaseString demoSite inTarget negb samples
       countAlleles hetHelpers demoHelpers sufficientAlternateObservations
       siteGenotypeAlleles genotypeAlleles groupAlleles].
  assert (Ecov : (20 <? minCoverage p)%Z = false) by (apply Z.ltb_ge; lia).
  assert (Ealt : (minAltCount p <=? 10)%Z = true) by (apply Z.leb_le; lia).
  assert (Efrac : Rleb (minAltFraction p * IZR 20) (IZR 10) = true).
  { rewrite Hfrac. unfold Rleb.
    destruct (Rle_dec (0 * 20) 10) as [_|Hgt]; [reflexivity|lra]. }
  cbn. rewrite Ecov, Ealt, Efrac. reflexivity.
Qed.

Lemma het_passes_le (p : Parameters) :
  PVL p <= 1 ->
  passesPVL p (rep_decision (@siteReport nat unit unit hetHelpers p demoSite))
  = true.
Proof.
  intros Hpvl. apply passesPVL_iff.
  rewrite siteReport_decision, het_combos.
  destruct (@siteDecision_accumulators nat unit unit hetHelpers [hetCombo])
    as [E _].
  rewrite E. cbn [filter isHomozygous hetHelpers demoHelpers fold_left].
  rewrite ld_sub_1_0. lra.
Qed.

Lemma het_writes (p : Parameters) :
  PVL p <= 1 -> reportAllAlternates p = true ->
  exists rec,
    rep_out (@siteReport nat unit unit hetHelpers p demoSite) = Some [rec].
Proof.
  intros Hpvl Hall.
  pose proof (@siteReport_cases nat unit unit hetHelpers p demoSite) as C.
  cbv zeta in C. destruct C as [_ C].
  rewrite het_combos, het_passes_le in C by exact Hpvl.
  destruct C as (best & _ & _ & C).
  destruct (calculateMarginals p); destruct C as [Eout _]; rewrite Eout;
    unfold emitRecords; rewrite Hall; cbn [alternateAlleles hetHelpers demoHelpers map];
    eexists; reflexivity.
Qed.

(** X5 at the one-sample site. *)
Lemma likelihood_tables_witness :
  let p := demoParameters 0 1 0 true in
  let gbp := genotypesByPloidy (@siteData nat unit unit hetHelpers demoSite) in
  let l := rep_likelihoods (@siteReport nat unit unit hetHelpers p demoSite) in
  NoDup (map fst (samples demoSite))
  /\ sampleDataLikelihoods l
     = map (@sampleRow nat unit unit hetHelpers p demoSite gbp)
         (filter (@sampleHasData nat unit unit hetHelpers p demoSite gbp)
            (samples demoSite)).
Proof.
  cbv zeta.
  assert (Hnodup : NoDup (map fst (samples demoSite))).
  { cbn. constructor; [intros []|constructor]. }
  split; [exact Hnodup|].
  exact (proj1 (@likelihood_tables nat unit unit hetHelpers
                  (demoParameters 0 1 0 true) demoSite Hnodup)).
Defined.

(** X8 at the heterozygous site, which has twenty observations: processed
    with [minCoverage = 5], hence with [minCoverage = 0]. *)
Lemma minCoverage_monotone_witness :
  let p := demoParameters 0 1 0 true in
  (minCoverage p <= 5)%Z
  /\ @processSite nat unit unit hetHelpers p demoSite
     = Processed (@siteReport nat unit unit hetHelpers (withMinCoverage p 5) demoSite).
Proof.
  cbv zeta.
  assert (Hle : (minCoverage (demoParameters 0 1 0 true) <= 5)%Z) by (cbn; lia).
  split; [exact Hle|].
  apply (@minCoverage_monotone nat unit unit hetHelpers
           (demoParameters 0 1 0 true) demoSite 5 _ Hle).
  apply het_processed; cbn; [lia|lia|reflexivity].
Defined.

(** X9 at the heterozygous site, where [pHom = 0]: the record written with
    [PVL = 1/2] is written with [PVL = 0]. *)
Lemma PVL_monotone_witness :
  let p := demoParameters 0 1 0 true in
  PVL p <= 1 / 2
  /\ exists rec,
       rep_out (@siteReport nat unit unit hetHelpers (withPVL p (1 / 2)) demoSite)
       = Some [rec]
       /\ rep_out (@siteReport nat unit unit hetHelpers p demoSite) = Some [rec].
Proof.
  cbv zeta.
  assert (Hle : PVL (demoParameters 0 1 0 true) <= 1 / 2) by (cbn; lra).
  split; [exact Hle|].
  destruct (het_writes (withPVL (demoParameters 0 1 0 true) (1 / 2)))
    as [rec Eout]; [cbn; lra|reflexivity|].
  exists rec. split; [exact Eout|].
  apply (@PVL_monotone nat unit unit hetHelpers
           (demoParameters 0 1 0 true) demoSite (1 / 2) [rec] Hle);
    [discriminate|exact Eout].
Defined.

(** X13 at the heterozygous site: its record carries the twenty observations
    and the base of its alternate. *)
Lemma records_differ_in_alternate_witness :
  let p := demoParameters 0 1 0 true in
  exists rec,
    rep_out (@siteReport nat unit unit hetHelpers p demoSite) = Some [rec]
    /\ vcf_coverage rec = 20%Z
    /\ vcf_altbase rec = base (vcf_alt rec).
Proof.
  cbv zeta.
  destruct (het_writes (demoParameters 0 1 0 true)) as [rec Eout];
    [cbn; lra|reflexivity|].
  exists rec. split; [exact Eout|].
  destruct (proj1 (@records_differ_in_alternate nat unit unit hetHelpers
                     (demoParameters 0 1 0 true) demoSite [rec] Eout)
              rec (or_introl eq_refl))
    as (_ & _ & _ & _ & Ecov & _ & _ & Ebase & _).
  split; [exact Ecov|exact Ebase].
Defined.

(** X14 at the heterozygous site with an iteration cap of zero. *)
Lemma zero_iteration_cap_witness :
  let p := withMaxIterations (demoParameters 0 1 0 true) 0 in
  (genotypingMaxIterations p <= 0)%Z
  /\ calculateMarginals p = true
  /\ iterationsStarted
       (rep_calls (@siteReport nat unit unit hetHelpers p demoSite)) = 0%nat.
Proof.
  cbv zeta.
  assert (Hcap : (genotypingMaxIterations
                    (withMaxIterations (demoParameters 0 1 0 true) 0) <= 0)%Z)
    by (cbn; lia).
  split; [exact Hcap|]. split; [reflexivity|].
  exact (proj1 (@zero_iteration_cap nat unit unit hetHelpers
                  (withMaxIterations (demoParameters 0 1 0 true) 0) demoSite
                  Hcap eq_refl)).
Defined.

(** X16 at the site of [rankedCombos], whose comparator orders by
    [posteriorProb]. *)
Lemma front_has_highest_posterior_witness :
  let p := demoParameters 0 1 0 true in
  rep_genotypeCombos (@siteReport nat unit unit rankedHelpers p demoSite)
  = homRef :: [hetLower]
  /\ forall c,
       In c (@searchCombos nat unit unit rankedHelpers p demoSite
               (siteAlleles (@siteData nat unit unit rankedHelpers demoSite))
               (@likelihoodLoop nat unit unit rankedHelpers p demoSite
                  (genotypesByPloidy
                     (@siteData nat unit unit rankedHelpers demoSite)))) ->
       posteriorProb c <= posteriorProb homRef.
Proof.
  cbv zeta. split; [apply ranked_combos|].
  exact (@front_has_highest_posterior nat unit unit rankedHelpers
           (fun a b => eq_refl) (demoParameters 0 1 0 true) demoSite
           homRef [hetLower] (ranked_combos (demoParameters 0 1 0 true))).
Defined.

(** X18 at the site of [rankedCombos]: the search returned the homozygous
    reference combo twice, and the site's list holds it. *)
Lemma dropped_combo_has_equal_kept_witness :
  let r := @siteReport nat unit unit rankedHelpers (demoParameters 0 1 0 true)
             demoSite in
  In homRef
    (@searchCombos nat unit unit rankedHelpers (demoParameters 0 1 0 true) demoSite
       (siteAlleles (rep_data r)) (rep_likelihoods r))
  /\ exists kept,
       In kept (rep_genotypeCombos r)
       /\ (kept = homRef
           \/ @GenotypeCombo_eq nat unit unit rankedHelpers kept homRef = true).
Proof.
  cbv zeta.
  assert (Hin : In homRef
                  (@searchCombos nat unit unit rankedHelpers
                     (demoParameters 0 1 0 true) demoSite
                     (siteAlleles
                        (rep_data (@siteReport nat unit unit rankedHelpers
                                     (demoParameters 0 1 0 true) demoSite)))
                     (rep_likelihoods
                        (@siteReport nat unit unit rankedHelpers
                           (demoParameters 0 1 0 true) demoSite))))
    by (right; left; reflexivity).
  split; [exact Hin|].
  exact (@dropped_combo_has_equal_kept nat unit unit rankedHelpers
           (demoParameters 0 1 0 true) demoSite homRef Hin).
Defined.

(** C8 at a site without observations, with [minCoverage = 0] and both
    alternate thresholds at zero: the alternate-observation check of these
    helpers fails where there is no observation; the guard of line 137 skips
    the site, and the fourth listed condition holds. *)
Lemma skip_checks_in_order_witness :
  let p := demoParameters 0 0 0 true in
  @alternateCheckNeedsObservations nat unit unit emptyPileupHelpers
  /\ @processSite nat unit unit emptyPileupHelpers p demoSite
     = Skipped skip_zero_coverage
  /\ ~ (@countAlleles nat unit unit emptyPileupHelpers (samples demoSite)
        < minCoverage p)%Z
  /\ @sufficientAlternateObservations nat unit unit emptyPileupHelpers
       (samples demoSite) (minAltCount p) (minAltFraction p) = false.
Proof.
  cbv zeta.
  assert (Hspec : @alternateCheckNeedsObservations nat unit unit emptyPileupHelpers)
    by (intros observed minCount minFraction _; reflexivity).
  split; [exact Hspec|].
  destruct (@skip_checks_in_order nat unit unit emptyPileupHelpers
              (demoParameters 0 0 0 true) demoSite Hspec)
    as (_ & _ & _ & _ & Halternate & _).
  cbv zeta in Halternate.
  assert (Hskipped : @processSite nat unit unit emptyPileupHelpers
                       (demoParameters 0 0 0 true) demoSite
                     = Skipped skip_zero_coverage) by reflexivity.
  assert (Hcov : ~ (@countAlleles nat unit unit emptyPileupHelpers (samples demoSite)
                    < minCoverage (demoParameters 0 0 0 true))%Z)
    by (cbn; lia).
  split; [exact Hskipped|]. split; [exact Hcov|].
  apply Halternate. right. split; [exact Hskipped|exact Hcov].
Defined.
